(** * MedicalSite: the chat widget and the Gemini service layer

    A shallow embedding of [src/components/Chatbot.tsx] and
    [src/services/geminiService.ts].

    - JavaScript strings are sequences of code units.  The embedding uses
      [string], whose characters are the code units below 256 (the Latin-1
      range); on that range [trim], [toLowerCase] and [includes] are written
      out as ECMAScript defines them.
    - [Date.now()] and the provider are the environment: clock readings are
      integers handed to the handlers, a streamed response is a finite list
      of fragments that either completes or raises.
    - [handleSend] is an async function.  Each piece of its body between two
      suspension points is one function on the widget state; [handleSend]
      composes them for one uninterrupted send, and [step] interleaves them
      with the other UI events. *)

From Stdlib Require Import String Ascii List Bool Arith ZArith Lia.
From Stdlib Require Import DecimalString DecimalZ.
Import ListNotations.

Local Open Scope string_scope.
Local Open Scope list_scope.
Local Open Scope nat_scope.

(* ===================================================================== *)
(** * Part I: definitions *)
(* ===================================================================== *)

(** ** The JavaScript built-ins the sources call *)
Module JS.

(** ECMAScript [WhiteSpace] and [LineTerminator] code points below 256:
    TAB, LF, VT, FF, CR, SP and NBSP. *)
Definition isWhiteSpace (c : ascii) : bool :=
  let n := nat_of_ascii c in
  ((9 <=? n) && (n <=? 13)) || (n =? 32) || (n =? 160).

(** [String.prototype.trimStart]. *)
Fixpoint trimStart (s : string) : string :=
  match s with
  | EmptyString => EmptyString
  | String c r => if isWhiteSpace c then trimStart r else s
  end.

(** [String.prototype.trimEnd]. *)
Fixpoint trimEnd (s : string) : string :=
  match s with
  | EmptyString => EmptyString
  | String c r =>
      match trimEnd r with
      | EmptyString => if isWhiteSpace c then EmptyString
                       else String c EmptyString
      | r' => String c r'
      end
  end.

(** [String.prototype.trim]. *)
Definition trim (s : string) : string := trimEnd (trimStart s).

(** [ToBoolean] on a string: only the empty string is falsy. *)
Definition truthy (s : string) : bool :=
  match s with EmptyString => false | String _ _ => true end.

(** [ToBoolean] on [string | undefined]. *)
Definition truthy_opt (o : option string) : bool :=
  match o with None => false | Some s => truthy s end.

(** Lower-case mapping of one code unit below 256: A-Z and the Latin-1
    capitals U+00C0-U+00DE (U+00D7, the multiplication sign, is no
    letter) move up by 32; everything else is its own lower case. *)
Definition toLowerChar (c : ascii) : ascii :=
  let n := nat_of_ascii c in
  if ((65 <=? n) && (n <=? 90))
     || ((192 <=? n) && (n <=? 222) && negb (n =? 215))
  then ascii_of_nat (n + 32) else c.

(** [String.prototype.toLowerCase]. *)
Fixpoint toLowerCase (s : string) : string :=
  match s with
  | EmptyString => EmptyString
  | String c r => String (toLowerChar c) (toLowerCase r)
  end.

(** [String.prototype.includes]: the pattern starts at some position. *)
Fixpoint includes (s pat : string) : bool :=
  String.prefix pat s
  || match s with
     | EmptyString => false
     | String _ r => includes r pat
     end.

(** [Number.prototype.toString] on an integral number of milliseconds:
    the decimal digits, with a leading minus sign below zero. *)
Definition toString (n : Z) : string :=
  NilZero.string_of_int (Z.to_int n).

(** The double-quote character, for template literals that contain it. *)
Definition dquote : string := String (ascii_of_nat 34) EmptyString.

(** How a call or an awaited promise ends. *)
Inductive Completion (A : Type) : Type :=
| Normal (v : A)
| Throw.
Arguments Normal {A} v.
Arguments Throw {A}.

(** [await p] followed by the rest of the [try] block. *)
Definition bind {A B} (c : Completion A) (k : A -> Completion B)
  : Completion B :=
  match c with
  | Normal v => k v
  | Throw => Throw
  end.

(** [try { body } catch (error) { handler }]. *)
Definition try_catch {A} (body handler : Completion A) : Completion A :=
  match body with
  | Normal v => Normal v
  | Throw => handler
  end.

(** [a || b] on [string | undefined] with a string default. *)
Definition or_else (a : option string) (b : string) : string :=
  if truthy_opt a then match a with Some s => s | None => b end else b.

End JS.


(** ** The [@google/genai] client as the sources use it *)
Module GenAI.

(** [GenerateContentResponse]: its [text] getter yields a string or
    [undefined]. *)
Record GenerateContentResponse : Type := { text : option string }.

(** The argument of [ai.models.generateContent]. *)
Record GenerateContentParameters : Type :=
  { model : string; contents : string }.

(** A [Chat] is an opaque object; the handle is the number of chats the
    client had created before it, so two creations never give one handle. *)
Definition Chat : Type := nat.

(** The state of a [GoogleGenAI] client that the sources can observe: how
    many chats it has created. *)
Record Client : Type := { chats_created : nat }.

(** [ai.chats.create(...)]: a new chat object on every call. *)
Definition chats_create (ai : Client) : Chat * Client :=
  (chats_created ai, {| chats_created := S (chats_created ai) |}).

(** How the iteration of a streamed response ends. *)
Inductive StreamEnd : Type := Completed | Raised.

(** The async iterable [sendMessageStream] resolves to: finitely many
    fragments in delivery order, then completion or an exception. *)
Record ResponseStream : Type :=
  { fragments : list GenerateContentResponse; ending : StreamEnd }.

End GenAI.

(** ** [src/services/geminiService.ts] *)
Module geminiService.

Inductive ContentType : Type := blog | service_desc.

Definition MODEL : string := "gemini-3-flash-preview".

(** Lines 5-22.  The model name, the temperature and the system
    instruction are constants handed to the provider; the caller sees the
    new chat object only. *)
Definition createChatSession (ai : GenAI.Client) : GenAI.Chat * GenAI.Client :=
  GenAI.chats_create ai.

Section Provider.

(** [ai.models.generateContent], awaited: any behaviour of the provider. *)
Variable generateContent :
  GenAI.GenerateContentParameters -> JS.Completion GenAI.GenerateContentResponse.

(** The records handed to [analyzeLeads] are of type [any]; what the
    function does with them is [JSON.stringify], which may throw. *)
Variable Lead : Type.
Variable JSON_stringify : list Lead -> JS.Completion string.

Definition blog_prompt (topic : string) : string :=
  ("Write a short, engaging, SEO-friendly blog post intro (approx 150 words) for a medical clinic about: "
   ++ JS.dquote ++ topic ++ JS.dquote
   ++ ". Focus on patient benefits and trust.")%string.

Definition service_prompt (topic : string) : string :=
  ("Write a compelling 2-sentence service description for: "
   ++ JS.dquote ++ topic ++ JS.dquote
   ++ ". Focus on luxury, comfort, and results.")%string.

Definition CONTENT_EMPTY : string := "Content generation failed.".
Definition CONTENT_FALLBACK : string :=
  "Unable to generate content at this time. Please try again later.".

(** Lines 26-28: the prompt for the kind of content asked for. *)
Definition marketing_prompt (topic : string) (type : ContentType) : string :=
  match type with
  | blog => blog_prompt topic
  | service_desc => service_prompt topic
  end.

(** Lines 24-39.  [console.error] in the handler prints and returns. *)
Definition generateMarketingContent (topic : string) (type : ContentType)
  : JS.Completion string :=
  JS.try_catch
    (let prompt := marketing_prompt topic type in
     JS.bind
       (generateContent {| GenAI.model := MODEL; GenAI.contents := prompt |})
       (fun response =>
          JS.Normal (JS.or_else (GenAI.text response) CONTENT_EMPTY)))
    (JS.Normal CONTENT_FALLBACK).

Definition leads_prompt (json : string) : string :=
  ("Analyze these anonymized leads and suggest 3 actionable marketing improvements in JSON format (just the insights text, no markdown): "
   ++ json)%string.

Definition INSIGHTS_EMPTY : string := "No insights available.".
Definition INSIGHTS_FALLBACK : string := "Analysis unavailable.".

(** Lines 41-51. *)
Definition analyzeLeads (leadsData : list Lead) : JS.Completion string :=
  JS.try_catch
    (JS.bind (JSON_stringify leadsData) (fun json =>
     JS.bind
       (generateContent
          {| GenAI.model := MODEL; GenAI.contents := leads_prompt json |})
       (fun response =>
          JS.Normal (JS.or_else (GenAI.text response) INSIGHTS_EMPTY))))
    (JS.Normal INSIGHTS_FALLBACK).

End Provider.

End geminiService.

(** ** [src/components/Chatbot.tsx] *)
Module Chatbot.

Inductive Sender : Type := user | bot.

(** Lines 6-10. *)
Record Message : Type := { id : string; sender : Sender; text : string }.

(** The argument of the lead-capture callback (line 13). *)
Record LeadInfo : Type := { name : option string; interest : option string }.

(** Lines 12-14: the callback is optional, and it is foreign code that
    returns or throws. *)
Record ChatbotProps : Type :=
  { onLeadCapture : option (LeadInfo -> JS.Completion unit) }.

(** The hooks of one widget instance (lines 17-23). *)
Record State : Type :=
  { isOpen : bool;
    messages : list Message;
    input : string;
    isLoading : bool;
    chatSessionRef : option GenAI.Chat }.

(** What the widget does to the outside, in order. *)
Inductive Call : Type :=
| sendMessageStream (chat : GenAI.Chat) (message : string)
| leadCapture (info : LeadInfo)
| console_error
| scrollIntoView.

Definition GREETING : string :=
  "Hello! I'm Lumi. How can I help you achieve your wellness goals today?".
Definition APOLOGY : string :=
  "I'm having trouble connecting right now. Please call our office directly.".
Definition LEAD_INTEREST : string := "General Inquiry (Chat)".

(** The state of the first render. *)
Definition initial : State :=
  {| isOpen := false;
     messages := [ {| id := "init"; sender := bot; text := GREETING |} ];
     input := "";
     isLoading := false;
     chatSessionRef := None |}.

(** The state setters. *)
Definition setIsOpen (b : bool) (w : State) : State :=
  {| isOpen := b; messages := messages w; input := input w;
     isLoading := isLoading w; chatSessionRef := chatSessionRef w |}.

Definition setMessages (f : list Message -> list Message) (w : State) : State :=
  {| isOpen := isOpen w; messages := f (messages w); input := input w;
     isLoading := isLoading w; chatSessionRef := chatSessionRef w |}.

Definition setInput (v : string) (w : State) : State :=
  {| isOpen := isOpen w; messages := messages w; input := v;
     isLoading := isLoading w; chatSessionRef := chatSessionRef w |}.

Definition setIsLoading (b : bool) (w : State) : State :=
  {| isOpen := isOpen w; messages := messages w; input := input w;
     isLoading := b; chatSessionRef := chatSessionRef w |}.

Definition setChatSession (c : GenAI.Chat) (w : State) : State :=
  {| isOpen := isOpen w; messages := messages w; input := input w;
     isLoading := isLoading w; chatSessionRef := Some c |}.

(** Lines 33-35: the element the ref points to is rendered only while the
    window is open (lines 96 and 137); without it nothing is scrolled. *)
Definition scrollToBottom (w : State) : list Call :=
  if isOpen w then [scrollIntoView] else [].

(** Lines 26-31, the body of the effect: it runs after a render in which
    [isOpen] or [messages] changed. *)
Definition useEffect (ai : GenAI.Client) (w : State)
  : GenAI.Client * State * list Call :=
  match isOpen w, chatSessionRef w with
  | true, None =>
      let (chat, ai') := geminiService.createChatSession ai in
      (ai', setChatSession chat w, scrollToBottom w)
  | _, _ => (ai, w, scrollToBottom w)
  end.

(** *** [handleSend], piece by piece *)

(** Line 38: the guard that makes [handleSend] return at once. *)
Definition returns_early (w : State) : bool :=
  negb (JS.truthy (JS.trim (input w)))
  || match chatSessionRef w with None => true | Some _ => false end.

(** Lines 38-46, up to the [await]: the guard, the user message, the
    cleared input, the in-flight flag and the request.  The result carries
    the value of [input] that the rest of the body still reads. *)
Definition handleSend_start (now : Z) (w : State)
  : option (State * list Call * string) :=
  if returns_early w then None
  else match chatSessionRef w with
       | None => None                       (* the guard has returned *)
       | Some chat =>
           let userMsg :=
             {| id := JS.toString now; sender := user; text := input w |} in
           Some (setIsLoading true
                   (setInput ""
                      (setMessages (fun prev => prev ++ [userMsg]) w)),
                 [sendMessageStream chat (input w)],
                 input w)
       end.

(** Lines 48-52: the stream is there; the empty placeholder is appended. *)
Definition handleSend_opened (now : Z) (w : State) : State * string :=
  let botMsgId := JS.toString (now + 1) in
  (setMessages
     (fun prev => prev ++ [ {| id := botMsgId; sender := bot; text := "" |} ])
     w,
   botMsgId).

(** Line 59: the function handed to [setMessages] for one fragment. *)
Definition replaceText (botMsgId botResponseText : string)
  (prev : list Message) : list Message :=
  map (fun msg =>
         if (id msg =? botMsgId)%string
         then {| id := id msg; sender := sender msg; text := botResponseText |}
         else msg)
      prev.

(** Lines 55-61: one turn of the loop, on the accumulator and the state. *)
Definition handleSend_chunk (botMsgId : string)
  (c : GenAI.GenerateContentResponse) (st : string * State) : string * State :=
  let (botResponseText, w) := st in
  match GenAI.text c with
  | Some t =>
      if JS.truthy t then
        let botResponseText' := (botResponseText ++ t)%string in
        (botResponseText', setMessages (replaceText botMsgId botResponseText') w)
      else st
  | None => st
  end.

(** Lines 54-62: the loop over the fragments that were delivered. *)
Definition consume (botMsgId : string)
  (cs : list GenAI.GenerateContentResponse) (st : string * State)
  : string * State :=
  fold_left (fun st c => handleSend_chunk botMsgId c st) cs st.

(** Line 65: the keyword test on the input the send started with. *)
Definition mentions_booking (input : string) : bool :=
  JS.includes (JS.toLowerCase input) "booking"
  || JS.includes (JS.toLowerCase input) "appointment".

(** Lines 65-67. *)
Definition handleSend_lead (props : ChatbotProps) (input : string)
  : list Call * JS.Completion unit :=
  if mentions_booking input then
    match onLeadCapture props with
    | Some callback =>
        let info := {| name := None; interest := Some LEAD_INTEREST |} in
        ([leadCapture info], callback info)
    | None => ([], JS.Normal tt)
    end
  else ([], JS.Normal tt).

(** Lines 69-71. *)
Definition handleSend_catch (now : Z) (w : State) : State * list Call :=
  (setMessages
     (fun prev =>
        prev ++ [ {| id := JS.toString now; sender := bot; text := APOLOGY |} ])
     w,
   [console_error]).

(** Lines 72-74. *)
Definition handleSend_finally (w : State) : State := setIsLoading false w.

(** *** One uninterrupted send *)

(** What the environment does during one call of [handleSend]: the clock
    at line 40, what [sendMessageStream] resolves to (or that it fails),
    the clock at line 49 and the clock at line 71. *)
Record Run : Type :=
  { now_user : Z;
    response : JS.Completion GenAI.ResponseStream;
    now_bot : Z;
    now_catch : Z }.

(** Lines 37-75 with nothing else running in between. *)
Definition handleSend (props : ChatbotProps) (e : Run) (w : State)
  : State * list Call :=
  match handleSend_start (now_user e) w with
  | None => (w, [])
  | Some (w1, calls1, input) =>
      let failed (w' : State) (calls : list Call) :=
        let (w'', calls') := handleSend_catch (now_catch e) w' in
        (handleSend_finally w'', calls ++ calls') in
      match response e with
      | JS.Throw => failed w1 calls1
      | JS.Normal stream =>
          let (w2, botMsgId) := handleSend_opened (now_bot e) w1 in
          let (_, w3) := consume botMsgId (GenAI.fragments stream) ("", w2) in
          match GenAI.ending stream with
          | GenAI.Raised => failed w3 calls1
          | GenAI.Completed =>
              match handleSend_lead props input with
              | (calls2, JS.Normal _) =>
                  (handleSend_finally w3, calls1 ++ calls2)
              | (calls2, JS.Throw) => failed w3 (calls1 ++ calls2)
              end
          end
      end
  end.

(** *** The widget among its events *)

(** Where a call of [handleSend] that is still running stands. *)
Inductive Phase : Type :=
| Awaiting                                        (* at the await, line 46 *)
| Streaming (botMsgId botResponseText : string)   (* in the loop, line 54 *)
| Finished.

(** A running call: the [input] its closure holds, and its phase. *)
Record Task : Type := { captured_input : string; phase : Phase }.

(** The widget, the calls of [handleSend] started so far, the provider
    client and everything done to the outside. *)
Record Machine : Type :=
  { widget : State;
    tasks : list Task;
    ai : GenAI.Client;
    log : list Call }.

(** What can happen to a widget.  The clock readings are those of the
    [Date.now()] calls the event leads to; [k] numbers the calls of
    [handleSend] in the order they started. *)
Inductive Event : Type :=
| ClickTrigger                                  (* line 81 *)
| Change (value : string)                       (* line 146 *)
| KeyDownEnter (now : Z)                        (* line 147 *)
| ClickSend (now : Z)                           (* lines 152-153 *)
| StreamResolved (k : nat) (now : Z)            (* line 46 resolves *)
| StreamRejected (k : nat) (now : Z)            (* line 46 throws *)
| Fragment (k : nat) (c : GenAI.GenerateContentResponse)
| StreamCompleted (k : nat) (now : Z)           (* the loop ends *)
| StreamRaised (k : nat) (now : Z).             (* the loop throws *)

Definition start (ai : GenAI.Client) : Machine :=
  {| widget := initial; tasks := []; ai := ai; log := [] |}.

(** The render after [isOpen] or [messages] changed, with its effect. *)
Definition render (m : Machine) : Machine :=
  let '(ai', w, calls) := useEffect (ai m) (widget m) in
  {| widget := w; tasks := tasks m; ai := ai'; log := log m ++ calls |}.

Definition with_widget (w : State) (m : Machine) : Machine :=
  {| widget := w; tasks := tasks m; ai := ai m; log := log m |}.

Definition with_calls (calls : list Call) (m : Machine) : Machine :=
  {| widget := widget m; tasks := tasks m; ai := ai m; log := log m ++ calls |}.

Fixpoint set_nth {A} (k : nat) (x : A) (l : list A) : list A :=
  match l, k with
  | [], _ => []
  | _ :: r, O => x :: r
  | y :: r, S k' => y :: set_nth k' x r
  end.

Definition with_phase (k : nat) (t : Task) (ph : Phase) (m : Machine) : Machine :=
  {| widget := widget m;
     tasks := set_nth k {| captured_input := captured_input t; phase := ph |}
                (tasks m);
     ai := ai m; log := log m |}.

(** A call of [handleSend] from a handler. *)
Definition call_handleSend (now : Z) (m : Machine) : Machine :=
  match handleSend_start now (widget m) with
  | None => m
  | Some (w, calls, input) =>
      render
        {| widget := w;
           tasks := tasks m ++ [ {| captured_input := input; phase := Awaiting |} ];
           ai := ai m;
           log := log m ++ calls |}
  end.

(** The [catch] and [finally] blocks of call [k]; both state updates
    land in one render. *)
Definition fail_task (k : nat) (t : Task) (now : Z) (m : Machine) : Machine :=
  let (w, calls) := handleSend_catch now (widget m) in
  render
    (with_calls calls
       (with_widget (handleSend_finally w) (with_phase k t Finished m))).

(** One event.  The input field and the send button exist only while the
    window is open (line 96); the button is disabled as line 153 says; an
    event for a call that is not in the matching phase does nothing. *)
Definition step (props : ChatbotProps) (ev : Event) (m : Machine) : Machine :=
  match ev with
  | ClickTrigger =>
      render (with_widget (setIsOpen (negb (isOpen (widget m))) (widget m)) m)
  | Change v =>
      if isOpen (widget m) then with_widget (setInput v (widget m)) m else m
  | KeyDownEnter now =>
      if isOpen (widget m) then call_handleSend now m else m
  | ClickSend now =>
      if isOpen (widget m) then
        if isLoading (widget m) || negb (JS.truthy (JS.trim (input (widget m))))
        then m else call_handleSend now m
      else m
  | StreamResolved k now =>
      match nth_error (tasks m) k with
      | Some ({| captured_input := _; phase := Awaiting |} as t) =>
          let (w, botMsgId) := handleSend_opened now (widget m) in
          render (with_widget w (with_phase k t (Streaming botMsgId "") m))
      | _ => m
      end
  | StreamRejected k now =>
      match nth_error (tasks m) k with
      | Some ({| captured_input := _; phase := Awaiting |} as t) =>
          fail_task k t now m
      | _ => m
      end
  | Fragment k c =>
      match nth_error (tasks m) k with
      | Some ({| captured_input := _; phase := Streaming botMsgId acc |} as t) =>
          let (acc', w) := handleSend_chunk botMsgId c (acc, widget m) in
          let m' := with_widget w (with_phase k t (Streaming botMsgId acc') m) in
          if JS.truthy_opt (GenAI.text c) then render m' else m'
      | _ => m
      end
  | StreamCompleted k now =>
      match nth_error (tasks m) k with
      | Some ({| captured_input := input; phase := Streaming _ _ |} as t) =>
          match handleSend_lead props input with
          | (calls, JS.Normal _) =>
              with_calls calls
                (with_widget (handleSend_finally (widget m))
                   (with_phase k t Finished m))
          | (calls, JS.Throw) => fail_task k t now (with_calls calls m)
          end
      | _ => m
      end
  | StreamRaised k now =>
      match nth_error (tasks m) k with
      | Some ({| captured_input := _; phase := Streaming _ _ |} as t) =>
          fail_task k t now m
      | _ => m
      end
  end.

(** A sequence of events, first to last. *)
Definition run (props : ChatbotProps) (evs : list Event) (m : Machine) : Machine :=
  fold_left (fun m ev => step props ev m) evs m.

(** The events of one uninterrupted call number [k] under [e]. *)
Definition events_of (k : nat) (e : Run) : list Event :=
  KeyDownEnter (now_user e)
  :: match response e with
     | JS.Throw => [StreamRejected k (now_catch e)]
     | JS.Normal stream =>
         StreamResolved k (now_bot e)
         :: map (Fragment k) (GenAI.fragments stream)
         ++ [match GenAI.ending stream with
             | GenAI.Completed => StreamCompleted k (now_catch e)
             | GenAI.Raised => StreamRaised k (now_catch e)
             end]
     end.

End Chatbot.

(** ** The words of the specification *)
Module Spec.

Import Chatbot.

(** "empty or whitespace-only". *)
Fixpoint whitespace_only (s : string) : bool :=
  match s with
  | EmptyString => true
  | String c r => JS.isWhiteSpace c && whitespace_only r
  end.

(** The text of a fragment; a fragment without text carries none. *)
Definition fragment_text (c : GenAI.GenerateContentResponse) : string :=
  match GenAI.text c with Some t => t | None => "" end.

(** "the concatenation of all streamed fragments in delivery order". *)
Definition concatenation (cs : list GenAI.GenerateContentResponse) : string :=
  fold_right String.append "" (map fragment_text cs).

(** "the concatenation of the non-empty fragment texts". *)
Definition concatenation_nonempty (cs : list GenAI.GenerateContentResponse)
  : string :=
  fold_right String.append "" (filter JS.truthy (map fragment_text cs)).

(** The fragments a response delivers; none when the request fails. *)
Definition delivered (r : JS.Completion GenAI.ResponseStream)
  : list GenAI.GenerateContentResponse :=
  match r with
  | JS.Normal stream => GenAI.fragments stream
  | JS.Throw => []
  end.

(** A capital letter below 256, and the small letter that belongs to it. *)
Definition is_capital (c : ascii) : bool :=
  let n := nat_of_ascii c in
  ((65 <=? n) && (n <=? 90)) || ((192 <=? n) && (n <=? 222) && negb (n =? 215)).

Definition capital_of (u l : ascii) : Prop :=
  is_capital u = true /\ nat_of_ascii l = nat_of_ascii u + 32.

(** Two characters that differ in case at most. *)
Definition eq_ignore_case (a b : ascii) : Prop :=
  a = b \/ capital_of a b \/ capital_of b a.

(** Two strings that differ in case at most, character by character. *)
Inductive same_ignoring_case : string -> string -> Prop :=
| sic_empty : same_ignoring_case "" ""
| sic_char a b s t :
    eq_ignore_case a b -> same_ignoring_case s t ->
    same_ignoring_case (String a s) (String b t).

(** "contains (case-insensitive) the substring". *)
Definition contains_ignoring_case (s pat : string) : Prop :=
  exists pre mid post,
    s = (pre ++ mid ++ post)%string /\ same_ignoring_case mid pat.

(** The invocations of the lead-capture callback among some calls. *)
Definition lead_calls (calls : list Call) : list LeadInfo :=
  flat_map (fun c => match c with leadCapture info => [info] | _ => [] end)
           calls.

(** The provider requests among some calls. *)
Definition requests (calls : list Call) : list (GenAI.Chat * string) :=
  flat_map (fun c => match c with
                     | sendMessageStream chat msg => [(chat, msg)]
                     | _ => []
                     end)
           calls.

(** The first testable property, read word for word: every non-empty
    input, sent while nothing is in flight and a session exists, appends
    one user message and one bot message with the concatenated text. *)
Definition every_nonempty_input_is_sent : Prop :=
  forall (props : ChatbotProps) (e : Run) (w : State),
    input w <> "" -> isLoading w = false -> chatSessionRef w <> None ->
    exists userMsg botMsg,
      messages (fst (handleSend props e w)) = messages w ++ [userMsg; botMsg]
      /\ sender userMsg = user /\ text userMsg = input w
      /\ sender botMsg = bot
      /\ text botMsg = concatenation (delivered (response e)).

(** The in-flight property, read word for word: a send while the
    in-flight flag is set changes no message and starts no request. *)
Definition send_in_flight_is_noop : Prop :=
  forall (props : ChatbotProps) (now : Z) (m : Machine),
    isOpen (widget m) = true -> isLoading (widget m) = true ->
    messages (widget (step props (KeyDownEnter now) m)) = messages (widget m)
    /\ requests (log (step props (KeyDownEnter now) m)) = requests (log m).

(** Events among which the trigger button is never clicked. *)
Definition never_opened (evs : list Event) : Prop :=
  Forall (fun ev => ev <> ClickTrigger) evs.

End Spec.

(** ** Notions the proofs use *)
Module Derived.

Import Chatbot.

(** Whether some fragment of the list makes the loop update the state. *)
Definition some_text (cs : list GenAI.GenerateContentResponse) : bool :=
  existsb (fun c => JS.truthy_opt (GenAI.text c)) cs.

(** The messages before the placeholder when the loop of a send under
    [e] on [w] is left. *)
Definition earlier_messages (e : Run) (w : State)
  (stream : GenAI.ResponseStream) : list Message :=
  let botMsgId := JS.toString (now_bot e + 1) in
  let userMsg :=
    {| id := JS.toString (now_user e); sender := user; text := input w |} in
  if some_text (GenAI.fragments stream)
  then replaceText botMsgId (Spec.concatenation (GenAI.fragments stream))
         (messages w ++ [userMsg])
  else messages w ++ [userMsg].

(** The widget [w] after a send that left the message list [msgs]. *)
Definition settled (w : State) (msgs : list Message) : State :=
  {| isOpen := isOpen w; messages := msgs; input := "";
     isLoading := false; chatSessionRef := chatSessionRef w |}.

(** The calls that leave the widget: all but the scrolling of its own view. *)
Definition outward (calls : list Call) : list Call :=
  filter (fun c => match c with scrollIntoView => false | _ => true end) calls.

(** Call number [k] of [handleSend] holds [inp] and stands at [ph], the
    widget state is [w], and [calls] have left the widget so far. *)
Definition call_at (m : Machine) (k : nat) (inp : string) (ph : Phase)
  (w : State) (calls : list Call) : Prop :=
  nth_error (tasks m) k = Some {| captured_input := inp; phase := ph |}
  /\ widget m = w
  /\ outward (log m) = calls.

(** What holds of the session of a widget whose provider client was [ai0]
    when the widget was mounted: an open widget has a session, and the
    client has created one chat more exactly when the widget holds it. *)
Definition session_invariant (ai0 : GenAI.Client) (m : Machine) : Prop :=
  (isOpen (widget m) = true -> chatSessionRef (widget m) <> None)
  /\ match chatSessionRef (widget m) with
     | None => GenAI.chats_created (ai m) = GenAI.chats_created ai0
     | Some chat =>
         chat = GenAI.chats_created ai0
         /\ GenAI.chats_created (ai m) = S (GenAI.chats_created ai0)
     end.

(** A call of [handleSend] that has not reached its [finally] block. *)
Definition active (t : Task) : bool :=
  match phase t with Finished => false | _ => true end.

(** How many calls of [handleSend] are still running. *)
Definition running (ts : list Task) : nat := length (filter active ts).

(** How many messages of the user a list shows. *)
Definition users (l : list Message) : nat :=
  length (filter (fun s => match s with user => true | bot => false end)
            (map sender l)).

(** The id and the sender of a message: what no update writes to. *)
Definition label (msg : Message) : string * Sender := (id msg, sender msg).

(** A placeholder id that a running call holds is the print of a number. *)
Definition numeric (t : Task) : Prop :=
  match phase t with
  | Streaming b _ => exists z : Z, b = JS.toString z
  | _ => True
  end.

(** Events among which the Enter key is never pressed. *)
Definition no_enter (evs : list Event) : Prop :=
  Forall (fun ev => forall now, ev <> KeyDownEnter now) evs.

(** The events of a stream, as opposed to those of the user. *)
Definition stream_event (ev : Event) : bool :=
  match ev with
  | StreamResolved _ _ | StreamRejected _ _ | Fragment _ _
  | StreamCompleted _ _ | StreamRaised _ _ => true
  | _ => false
  end.

(** What one event does to the messages, to the running calls, to the
    in-flight flag and to the requests: nothing, or one of the four
    pieces of [handleSend]. *)
Inductive step_effect (ev : Event) (m m' : Machine) : Prop :=
| effect_none :
    messages (widget m') = messages (widget m) ->
    tasks m' = tasks m ->
    isLoading (widget m') = isLoading (widget m) ->
    Spec.requests (log m') = Spec.requests (log m) ->
    step_effect ev m m'
| effect_start (now : Z) (chat : GenAI.Chat) (inp : string) :
    ((forall now', ev <> KeyDownEnter now') -> isLoading (widget m) = false) ->
    messages (widget m')
    = messages (widget m)
      ++ [ {| id := JS.toString now; sender := user; text := inp |} ] ->
    tasks m' = tasks m ++ [ {| captured_input := inp; phase := Awaiting |} ] ->
    isLoading (widget m') = true ->
    Spec.requests (log m') = Spec.requests (log m) ++ [(chat, inp)] ->
    step_effect ev m m'
| effect_open (k : nat) (now : Z) (inp : string) :
    nth_error (tasks m) k
    = Some {| captured_input := inp; phase := Awaiting |} ->
    messages (widget m')
    = messages (widget m)
      ++ [ {| id := JS.toString (now + 1); sender := bot; text := "" |} ] ->
    tasks m'
    = set_nth k {| captured_input := inp;
                   phase := Streaming (JS.toString (now + 1)) "" |} (tasks m) ->
    isLoading (widget m') = isLoading (widget m) ->
    Spec.requests (log m') = Spec.requests (log m) ->
    step_effect ev m m'
| effect_chunk (k : nat) (inp b acc acc' : string) :
    nth_error (tasks m) k
    = Some {| captured_input := inp; phase := Streaming b acc |} ->
    messages (widget m') = messages (widget m)
    \/ messages (widget m') = replaceText b acc' (messages (widget m)) ->
    tasks m'
    = set_nth k {| captured_input := inp; phase := Streaming b acc' |}
        (tasks m) ->
    isLoading (widget m') = isLoading (widget m) ->
    Spec.requests (log m') = Spec.requests (log m) ->
    step_effect ev m m'
| effect_finish (k : nat) (t : Task) (tail : list Message) :
    nth_error (tasks m) k = Some t -> active t = true ->
    messages (widget m') = messages (widget m) ++ tail ->
    Forall (fun msg => sender msg = bot) tail ->
    tasks m'
    = set_nth k {| captured_input := captured_input t; phase := Finished |}
        (tasks m) ->
    isLoading (widget m') = false ->
    Spec.requests (log m') = Spec.requests (log m) ->
    step_effect ev m m'.

End Derived.

(** ** Concrete widgets and runs *)
Module Samples.

Import Chatbot.

(** A widget without and with a lead-capture callback. *)
Definition silent : ChatbotProps := {| onLeadCapture := None |}.
Definition notifying : ChatbotProps :=
  {| onLeadCapture := Some (fun _ => JS.Normal tt) |}.

(** An open widget with a session, the greeting and [text] typed in. *)
Definition ready (text : string) : State :=
  {| isOpen := true; messages := messages initial; input := text;
     isLoading := false; chatSessionRef := Some 0 |}.

Definition fragment (t : string) : GenAI.GenerateContentResponse :=
  {| GenAI.text := Some t |}.

Definition no_text : GenAI.GenerateContentResponse :=
  {| GenAI.text := None |}.

(** The stream of the specification's example: "Hel", then "lo". *)
Definition hello (ending : GenAI.StreamEnd) : Run :=
  {| now_user := 1000%Z;
     response :=
       JS.Normal {| GenAI.fragments := [fragment "Hel"; fragment "lo"];
                    GenAI.ending := ending |};
     now_bot := 1005%Z;
     now_catch := 1010%Z |}.

(** A request that fails at once. *)
Definition refused : Run :=
  {| now_user := 1000%Z; response := JS.Throw;
     now_bot := 1005%Z; now_catch := 1010%Z |}.

(** A machine whose widget is [w] and that has started nothing. *)
Definition idle (w : State) : Machine :=
  {| widget := w; tasks := []; ai := {| GenAI.chats_created := 1 |};
     log := [] |}.

End Samples.

(* ===================================================================== *)
(** * Part II: properties *)
(* ===================================================================== *)

Import Chatbot.

(** Unfolds the state setters and projects the fields. *)
Ltac setters :=
  unfold handleSend_finally, handleSend_catch, Derived.settled,
    setIsLoading, setInput, setMessages, setIsOpen, setChatSession in *;
  cbn [isOpen messages input isLoading chatSessionRef fst snd] in *.

(** ** Strings *)

Lemma append_nil_r (s : string) : (s ++ "")%string = s.
Proof. induction s as [|c s IH]; simpl; [reflexivity | now rewrite IH]. Qed.

Lemma append_assoc (a b c : string) :
  ((a ++ b) ++ c)%string = (a ++ (b ++ c))%string.
Proof. induction a as [|x a IH]; simpl; [reflexivity | now rewrite IH]. Qed.

Lemma truthy_false_iff (s : string) : JS.truthy s = false <-> s = "".
Proof. destruct s; simpl; split; congruence. Qed.

Lemma trimStart_whitespace (s : string) :
  Spec.whitespace_only (JS.trimStart s) = Spec.whitespace_only s.
Proof.
  induction s as [|c s IH]; simpl; [reflexivity|].
  destruct (JS.isWhiteSpace c) eqn:Hc; simpl; [exact IH | now rewrite Hc].
Qed.

Lemma trimEnd_empty_iff (s : string) :
  JS.trimEnd s = "" <-> Spec.whitespace_only s = true.
Proof.
  induction s as [|c s IH]; simpl; [tauto|].
  destruct (JS.trimEnd s) eqn:Ht, (JS.isWhiteSpace c); simpl;
    split; intro H; try discriminate; try reflexivity.
  - apply IH; reflexivity.
  - apply IH in H; discriminate.
Qed.

(** [trim] leaves nothing exactly on the empty and whitespace-only
    strings. *)
Lemma trim_empty_iff (s : string) :
  JS.trim s = "" <-> Spec.whitespace_only s = true.
Proof.
  unfold JS.trim. rewrite trimEnd_empty_iff. now rewrite trimStart_whitespace.
Qed.

Lemma to_int_nonnil (z : Z) :
  Z.to_int z <> Decimal.Pos Decimal.Nil /\ Z.to_int z <> Decimal.Neg Decimal.Nil.
Proof.
  pose proof (DecimalZ.to_of (Z.to_int z)) as Hn.
  rewrite DecimalZ.of_to in Hn. rewrite Hn.
  destruct (Z.to_int z) as [d|d]; simpl; split; try discriminate.
  - intros [= E]. now apply DecimalFacts.unorm_nonnil in E.
  - destruct (Decimal.nzhead d); discriminate.
  - destruct (Decimal.nzhead d) eqn:E; congruence.
Qed.


(** ** The guard of [handleSend] *)

Lemma returns_early_iff (w : State) :
  returns_early w = true <->
  Spec.whitespace_only (input w) = true \/ chatSessionRef w = None.
Proof.
  unfold returns_early. rewrite orb_true_iff, negb_true_iff, truthy_false_iff.
  rewrite trim_empty_iff.
  destruct (chatSessionRef w); split; intros [H|H]; auto; discriminate.
Qed.

Lemma handleSend_start_none (now : Z) (w : State) :
  returns_early w = true -> handleSend_start now w = None.
Proof. unfold handleSend_start. now intros ->. Qed.

Lemma handleSend_start_some (now : Z) (w : State) :
  returns_early w = false ->
  exists chat,
    chatSessionRef w = Some chat /\
    handleSend_start now w =
      Some (setIsLoading true
              (setInput ""
                 (setMessages
                    (fun prev =>
                       prev ++ [ {| id := JS.toString now; sender := user;
                                    text := input w |} ]) w)),
            [sendMessageStream chat (input w)],
            input w).
Proof.
  intros Hg. unfold handleSend_start. rewrite Hg.
  unfold returns_early in Hg. apply orb_false_elim in Hg as [_ Hg].
  destruct (chatSessionRef w) as [chat|]; [|discriminate].
  exists chat. split; reflexivity.
Qed.

(** ** The per-fragment update *)

Lemma replaceText_length (b t : string) (l : list Message) :
  length (replaceText b t l) = length l.
Proof. apply length_map. Qed.

Lemma replaceText_app (b t : string) (l1 l2 : list Message) :
  replaceText b t (l1 ++ l2) = replaceText b t l1 ++ replaceText b t l2.
Proof. apply map_app. Qed.

Lemma replaceText_ids (b t : string) (l : list Message) :
  map id (replaceText b t l) = map id l.
Proof.
  unfold replaceText. rewrite map_map. apply map_ext.
  intros m. now destruct (id m =? b)%string.
Qed.

Lemma replaceText_senders (b t : string) (l : list Message) :
  map sender (replaceText b t l) = map sender l.
Proof.
  unfold replaceText. rewrite map_map. apply map_ext.
  intros m. now destruct (id m =? b)%string.
Qed.

(** Writing twice keeps the second text only. *)
Lemma replaceText_twice (b t1 t2 : string) (l : list Message) :
  replaceText b t2 (replaceText b t1 l) = replaceText b t2 l.
Proof.
  unfold replaceText. rewrite map_map. apply map_ext.
  intros m. destruct (id m =? b)%string eqn:E; simpl; now rewrite E.
Qed.

(** A list in which no message has the placeholder's id is left alone. *)
Lemma replaceText_fresh (b t : string) (l : list Message) :
  ~ In b (map id l) -> replaceText b t l = l.
Proof.
  induction l as [|m l IH]; simpl; [reflexivity|].
  intros H. rewrite IH by tauto.
  destruct (String.eqb_spec (id m) b) as [E|E]; [|reflexivity].
  exfalso. apply H. now left.
Qed.

(** ** The loop over the fragments *)

Lemma chunk_falsy (b : string) (c : GenAI.GenerateContentResponse)
  (st : string * State) :
  JS.truthy_opt (GenAI.text c) = false -> handleSend_chunk b c st = st.
Proof.
  unfold handleSend_chunk. destruct st as [acc w].
  destruct (GenAI.text c) as [t|]; simpl; [|reflexivity].
  now intros ->.
Qed.

Lemma chunk_truthy (b : string) (c : GenAI.GenerateContentResponse)
  (acc : string) (w : State) :
  JS.truthy_opt (GenAI.text c) = true ->
  handleSend_chunk b c (acc, w) =
    ((acc ++ Spec.fragment_text c)%string,
     setMessages (replaceText b (acc ++ Spec.fragment_text c)%string) w).
Proof.
  unfold handleSend_chunk, Spec.fragment_text.
  destruct (GenAI.text c) as [t|]; simpl; [|discriminate].
  now intros ->.
Qed.

Lemma fragment_text_falsy (c : GenAI.GenerateContentResponse) :
  JS.truthy_opt (GenAI.text c) = false -> Spec.fragment_text c = "".
Proof.
  unfold Spec.fragment_text. destruct (GenAI.text c) as [t|]; simpl.
  - apply truthy_false_iff.
  - reflexivity.
Qed.

Lemma truthy_fragment_text (c : GenAI.GenerateContentResponse) :
  JS.truthy (Spec.fragment_text c) = JS.truthy_opt (GenAI.text c).
Proof. unfold Spec.fragment_text. now destruct (GenAI.text c). Qed.

(** Leaving the empty texts out does not change the concatenation. *)
Lemma concatenation_nonempty_eq (cs : list GenAI.GenerateContentResponse) :
  Spec.concatenation_nonempty cs = Spec.concatenation cs.
Proof.
  unfold Spec.concatenation_nonempty, Spec.concatenation.
  induction cs as [|c cs IH]; simpl; [reflexivity|].
  destruct (JS.truthy (Spec.fragment_text c)) eqn:E; simpl.
  - now rewrite IH.
  - apply truthy_false_iff in E. now rewrite E, IH.
Qed.

Lemma concatenation_app (cs1 cs2 : list GenAI.GenerateContentResponse) :
  Spec.concatenation (cs1 ++ cs2) =
    (Spec.concatenation cs1 ++ Spec.concatenation cs2)%string.
Proof.
  unfold Spec.concatenation. induction cs1 as [|c cs1 IH]; simpl.
  - reflexivity.
  - now rewrite IH, append_assoc.
Qed.

Lemma setMessages_twice (f g : list Message -> list Message) (w : State) :
  setMessages g (setMessages f w) = setMessages (fun l => g (f l)) w.
Proof. reflexivity. Qed.

Lemma some_text_false (cs : list GenAI.GenerateContentResponse) :
  Derived.some_text cs = false -> Spec.concatenation cs = "".
Proof.
  unfold Derived.some_text, Spec.concatenation.
  induction cs as [|c cs IH]; simpl; [reflexivity|].
  rewrite orb_false_iff. intros [E1 E2].
  now rewrite (fragment_text_falsy c E1), IH.
Qed.

(** The loop in closed form: the accumulator grows by the concatenation;
    the state is written with the last accumulator, or not at all. *)
Lemma consume_closed (b : string) (cs : list GenAI.GenerateContentResponse) :
  forall (acc : string) (w : State),
    consume b cs (acc, w) =
      ((acc ++ Spec.concatenation cs)%string,
       if Derived.some_text cs
       then setMessages
              (replaceText b (acc ++ Spec.concatenation cs)%string) w
       else w).
Proof.
  unfold consume.
  induction cs as [|c cs IH]; intros acc w; cbn [fold_left Derived.some_text existsb].
  - simpl. now rewrite append_nil_r.
  - destruct (JS.truthy_opt (GenAI.text c)) eqn:E.
    + rewrite chunk_truthy by exact E. rewrite IH.
      change (Spec.concatenation (c :: cs))
        with (Spec.fragment_text c ++ Spec.concatenation cs)%string.
      rewrite append_assoc. f_equal. fold (Derived.some_text cs).
      destruct (Derived.some_text cs) eqn:Es; simpl.
      * rewrite setMessages_twice. unfold setMessages; simpl. f_equal.
        apply replaceText_twice.
      * now rewrite (some_text_false cs Es), append_nil_r.
    + rewrite chunk_falsy by exact E. rewrite IH.
      change (Spec.concatenation (c :: cs))
        with (Spec.fragment_text c ++ Spec.concatenation cs)%string.
      rewrite (fragment_text_falsy c E). reflexivity.
Qed.

(** ** Case and substrings *)

Lemma nat_of_ascii_inj (a b : ascii) :
  nat_of_ascii a = nat_of_ascii b -> a = b.
Proof.
  intros H. rewrite <- (ascii_nat_embedding a), <- (ascii_nat_embedding b).
  now rewrite H.
Qed.

Lemma is_capital_spec (c : ascii) :
  Spec.is_capital c = true <->
  (65 <= nat_of_ascii c <= 90)
  \/ (192 <= nat_of_ascii c <= 222 /\ nat_of_ascii c <> 215).
Proof.
  unfold Spec.is_capital.
  rewrite orb_true_iff, !andb_true_iff, negb_true_iff,
    !Nat.leb_le, Nat.eqb_neq.
  tauto.
Qed.

Lemma toLowerChar_nat (c : ascii) :
  nat_of_ascii (JS.toLowerChar c) =
    if Spec.is_capital c then nat_of_ascii c + 32 else nat_of_ascii c.
Proof.
  unfold JS.toLowerChar. fold (Spec.is_capital c).
  destruct (Spec.is_capital c) eqn:E; [|reflexivity].
  apply is_capital_spec in E. apply nat_ascii_embedding. lia.
Qed.

(** The lower-case mapping of the code identifies exactly the characters
    that differ in case at most. *)
Lemma eq_ignore_case_iff (a b : ascii) :
  Spec.eq_ignore_case a b <-> JS.toLowerChar a = JS.toLowerChar b.
Proof.
  unfold Spec.eq_ignore_case, Spec.capital_of. split.
  - intros H. apply nat_of_ascii_inj. rewrite !toLowerChar_nat.
    destruct H as [->|[[Ha E]|[Hb E]]]; [reflexivity| |].
    + rewrite Ha. destruct (Spec.is_capital b) eqn:Hb; [|lia].
      apply is_capital_spec in Ha, Hb. lia.
    + rewrite Hb. destruct (Spec.is_capital a) eqn:Ha; [|lia].
      apply is_capital_spec in Ha, Hb. lia.
  - intros H. apply (f_equal nat_of_ascii) in H.
    rewrite !toLowerChar_nat in H.
    destruct (Spec.is_capital a) eqn:Ha, (Spec.is_capital b) eqn:Hb.
    + left. apply nat_of_ascii_inj. lia.
    + right; left. split; [reflexivity | lia].
    + right; right. split; [reflexivity | lia].
    + left. now apply nat_of_ascii_inj.
Qed.

Lemma same_ignoring_case_iff (s t : string) :
  Spec.same_ignoring_case s t <-> JS.toLowerCase s = JS.toLowerCase t.
Proof.
  split.
  - induction 1 as [|a b s t Hab _ IH]; simpl; [reflexivity|].
    apply eq_ignore_case_iff in Hab. now rewrite Hab, IH.
  - revert t. induction s as [|a s IH]; intros [|b t]; simpl;
      try discriminate.
    + constructor.
    + intros [= Hab Hst]. constructor.
      * now apply eq_ignore_case_iff.
      * now apply IH.
Qed.

Lemma toLowerCase_app (s t : string) :
  JS.toLowerCase (s ++ t) = (JS.toLowerCase s ++ JS.toLowerCase t)%string.
Proof. induction s as [|c s IH]; simpl; [reflexivity | now rewrite IH]. Qed.

(** A lower-cased string splits where the original does. *)
Lemma toLowerCase_split (s a b : string) :
  JS.toLowerCase s = (a ++ b)%string ->
  exists sa sb,
    s = (sa ++ sb)%string /\ JS.toLowerCase sa = a /\ JS.toLowerCase sb = b.
Proof.
  revert s. induction a as [|x a IH]; intros s H; simpl in H.
  - exists "", s. auto.
  - destruct s as [|c s]; simpl in H; [discriminate|].
    injection H as Hc Hs.
    destruct (IH s Hs) as (sa & sb & -> & Ha & Hb).
    exists (String c sa), sb. simpl. now rewrite Hc, Ha.
Qed.

Lemma prefix_iff (pat s : string) :
  String.prefix pat s = true <-> exists post, s = (pat ++ post)%string.
Proof.
  revert s. induction pat as [|x pat IH]; intros s; simpl.
  - split; [intros _; now exists s | intros _; now destruct s].
  - destruct s as [|c s].
    + split; [discriminate | intros [post H]; discriminate].
    + simpl. destruct (ascii_dec x c) as [->|N].
      * rewrite IH. split; intros [post H]; exists post.
        -- now rewrite H.
        -- now injection H.
      * split; [discriminate | intros [post H]]. injection H as Hc _.
        now elim N.
Qed.

(** [includes] finds the pattern exactly when it occurs somewhere. *)
Lemma includes_iff (s pat : string) :
  JS.includes s pat = true <->
  exists pre post, s = (pre ++ pat ++ post)%string.
Proof.
  induction s as [|c s IH].
  - cbn [JS.includes]. rewrite orb_false_r, prefix_iff. split.
    + intros [post H]. now exists "", post.
    + intros (pre & post & H). destruct pre; [now exists post|discriminate].
  - cbn [JS.includes]. rewrite orb_true_iff, prefix_iff, IH. split.
    + intros [[post H]|(pre & post & H)].
      * now exists "", post.
      * exists (String c pre), post. simpl. now rewrite H.
    + intros (pre & post & H). destruct pre as [|x pre]; simpl in H.
      * left. now exists post.
      * right. injection H as _ H. now exists pre, post.
Qed.

(** Searching the lower-cased input for a pattern written in small
    letters is searching the input without regard to case. *)
Lemma includes_toLowerCase_iff (s pat : string) :
  JS.toLowerCase pat = pat ->
  JS.includes (JS.toLowerCase s) pat = true <->
  Spec.contains_ignoring_case s pat.
Proof.
  intros Hpat. rewrite includes_iff. unfold Spec.contains_ignoring_case. split.
  - intros (pre & post & H).
    apply toLowerCase_split in H as (sa & s1 & -> & Ha & H).
    apply toLowerCase_split in H as (mid & sb & -> & Hm & Hb).
    exists sa, mid, sb. split; [reflexivity|].
    apply same_ignoring_case_iff. now rewrite Hm, Hpat.
  - intros (pre & mid & post & -> & H).
    apply same_ignoring_case_iff in H. rewrite Hpat in H.
    exists (JS.toLowerCase pre), (JS.toLowerCase post).
    now rewrite !toLowerCase_app, H.
Qed.

(** The keyword test of line 65 in the words of the specification. *)
Lemma mentions_booking_iff (s : string) :
  mentions_booking s = true <->
  Spec.contains_ignoring_case s "booking"
  \/ Spec.contains_ignoring_case s "appointment".
Proof.
  unfold mentions_booking. rewrite orb_true_iff.
  now rewrite !includes_toLowerCase_iff by reflexivity.
Qed.

(** ** One uninterrupted send *)

(** The state when the loop of lines 54-62 is left: the placeholder holds
    the concatenation, and the messages before it were written to only if
    some fragment had text. *)
Lemma consume_after_opened (now : Z) (w1 : State)
  (cs : list GenAI.GenerateContentResponse) :
  let botMsgId := JS.toString (now + 1) in
  let final := Spec.concatenation cs in
  consume botMsgId cs ("", fst (handleSend_opened now w1)) =
    (final,
     setMessages
       (fun prev =>
          (if Derived.some_text cs then replaceText botMsgId final prev else prev)
          ++ [ {| id := botMsgId; sender := bot; text := final |} ])
       w1).
Proof.
  intros botMsgId final. rewrite consume_closed.
  cbn [handleSend_opened fst String.append]. fold botMsgId final.
  f_equal. destruct (Derived.some_text cs) eqn:Es.
  - rewrite setMessages_twice. unfold setMessages; simpl. f_equal.
    rewrite replaceText_app. f_equal. simpl.
    now rewrite String.eqb_refl.
  - unfold setMessages; simpl. f_equal. subst final.
    now rewrite (some_text_false cs Es).
Qed.

(** A send whose request fails: the apology follows the user message. *)
Lemma handleSend_rejected (props : ChatbotProps) (e : Run) (w : State) :
  returns_early w = false -> response e = JS.Throw ->
  exists chat,
    chatSessionRef w = Some chat /\
    handleSend props e w =
      (Derived.settled w
         (messages w
          ++ [ {| id := JS.toString (now_user e); sender := user;
                  text := input w |};
               {| id := JS.toString (now_catch e); sender := bot;
                  text := APOLOGY |} ]),
       [sendMessageStream chat (input w); console_error]).
Proof.
  intros Hg Hr. destruct (handleSend_start_some (now_user e) w Hg)
    as (chat & Hc & Hs).
  exists chat. split; [exact Hc|].
  unfold handleSend. rewrite Hs, Hr. setters.
  now rewrite <- app_assoc.
Qed.

(** A send whose stream raises: placeholder, then apology. *)
Lemma handleSend_raised (props : ChatbotProps) (e : Run) (w : State)
  (stream : GenAI.ResponseStream) :
  returns_early w = false -> response e = JS.Normal stream ->
  GenAI.ending stream = GenAI.Raised ->
  exists chat,
    chatSessionRef w = Some chat /\
    handleSend props e w =
      (Derived.settled w
         (Derived.earlier_messages e w stream
          ++ [ {| id := JS.toString (now_bot e + 1); sender := bot;
                  text := Spec.concatenation (GenAI.fragments stream) |};
               {| id := JS.toString (now_catch e); sender := bot;
                  text := APOLOGY |} ]),
       [sendMessageStream chat (input w); console_error]).
Proof.
  intros Hg Hr He. destruct (handleSend_start_some (now_user e) w Hg)
    as (chat & Hc & Hs).
  exists chat. split; [exact Hc|].
  unfold handleSend. rewrite Hs, Hr.
  pose proof (consume_after_opened (now_bot e)
    (setIsLoading true
       (setInput ""
          (setMessages
             (fun prev =>
                prev ++ [ {| id := JS.toString (now_user e); sender := user;
                             text := input w |} ]) w)))
    (GenAI.fragments stream)) as Hloop.
  cbv zeta in Hloop. cbn [handleSend_opened fst] in Hloop |- *.
  rewrite Hloop, He. unfold Derived.earlier_messages. setters.
  now rewrite <- app_assoc.
Qed.

(** A send whose stream completes: what the lead heuristic does decides. *)
Lemma handleSend_completed (props : ChatbotProps) (e : Run) (w : State)
  (stream : GenAI.ResponseStream) :
  returns_early w = false -> response e = JS.Normal stream ->
  GenAI.ending stream = GenAI.Completed ->
  let placeholder :=
    {| id := JS.toString (now_bot e + 1); sender := bot;
       text := Spec.concatenation (GenAI.fragments stream) |} in
  exists chat,
    chatSessionRef w = Some chat /\
    handleSend props e w =
      match handleSend_lead props (input w) with
      | (calls, JS.Normal _) =>
          (Derived.settled w (Derived.earlier_messages e w stream ++ [placeholder]),
           sendMessageStream chat (input w) :: calls)
      | (calls, JS.Throw) =>
          (Derived.settled w
             (Derived.earlier_messages e w stream
              ++ [ placeholder;
                   {| id := JS.toString (now_catch e); sender := bot;
                      text := APOLOGY |} ]),
           sendMessageStream chat (input w) :: calls ++ [console_error])
      end.
Proof.
  intros Hg Hr He placeholder.
  destruct (handleSend_start_some (now_user e) w Hg) as (chat & Hc & Hs).
  exists chat. split; [exact Hc|].
  unfold handleSend. rewrite Hs, Hr.
  pose proof (consume_after_opened (now_bot e)
    (setIsLoading true
       (setInput ""
          (setMessages
             (fun prev =>
                prev ++ [ {| id := JS.toString (now_user e); sender := user;
                             text := input w |} ]) w)))
    (GenAI.fragments stream)) as Hloop.
  cbv zeta in Hloop. cbn [handleSend_opened fst] in Hloop |- *.
  rewrite Hloop, He.
  destruct (handleSend_lead props (input w)) as [calls [[]|]];
    unfold Derived.earlier_messages; setters.
  - reflexivity.
  - now rewrite <- !app_assoc.
Qed.

(** ** The claims about one send *)

Lemma returns_early_false (w : State) :
  Spec.whitespace_only (input w) = false -> chatSessionRef w <> None ->
  returns_early w = false.
Proof.
  intros Hw Hc. destruct (returns_early w) eqn:E; [|reflexivity].
  apply returns_early_iff in E as [E|E]; congruence.
Qed.

Lemma set_nth_same {A} (k : nat) (x : A) (l : list A) :
  nth_error l k = Some x -> set_nth k x l = l.
Proof.
  revert k. induction l as [|y l IH]; intros [|k]; simpl; try discriminate.
  - now intros [= ->].
  - intros H. now rewrite IH.
Qed.

(** C5.  A send with an empty or whitespace-only input, or without a
    session handle, is a silent no-op: [handleSend] returns the widget
    state it was given and calls nothing, and neither the Enter key nor
    the send button changes the widget, the running sends, the provider
    client or the log of calls. *)
Theorem send_blank_or_sessionless_is_noop
  (props : ChatbotProps) (e : Run) (now : Z) (m : Machine) :
  Spec.whitespace_only (input (widget m)) = true
  \/ chatSessionRef (widget m) = None ->
  handleSend props e (widget m) = (widget m, [])
  /\ step props (KeyDownEnter now) m = m
  /\ step props (ClickSend now) m = m.
Proof.
  intros H. apply returns_early_iff in H.
  assert (Hs : forall t, handleSend_start t (widget m) = None)
    by (intros t; now apply handleSend_start_none).
  repeat split.
  - unfold handleSend. now rewrite Hs.
  - cbn [step]. unfold call_handleSend. rewrite Hs.
    now destruct (isOpen (widget m)).
  - cbn [step]. unfold call_handleSend. rewrite Hs.
    now destruct (isOpen (widget m)),
      (isLoading (widget m)
       || negb (JS.truthy (JS.trim (input (widget m))))).
Qed.

Lemma send_blank_or_sessionless_is_noop_witness :
  handleSend Samples.notifying (Samples.hello GenAI.Completed)
    (Samples.ready "   ") = (Samples.ready "   ", [])
  /\ step Samples.notifying (KeyDownEnter 1000)
       (Samples.idle (Samples.ready "   ")) = Samples.idle (Samples.ready "   ")
  /\ step Samples.notifying (ClickSend 1000)
       (Samples.idle (Samples.ready "   ")) = Samples.idle (Samples.ready "   ").
Proof.
  apply (send_blank_or_sessionless_is_noop Samples.notifying
           (Samples.hello GenAI.Completed) 1000
           (Samples.idle (Samples.ready "   "))).
  left. reflexivity.
Defined.

(** C9.  One turn of the loop of lines 54-62 keeps the length and the order
    of the message list: the message at every position keeps its id and
    its sender, a message whose id is not the placeholder's is left as it
    was, and nothing but the message list changes in the widget state. *)
Theorem fragment_update_frame
  (botMsgId : string) (c : GenAI.GenerateContentResponse)
  (acc : string) (w : State) (i : nat) (msg : Message) :
  nth_error (messages w) i = Some msg ->
  let w' := snd (handleSend_chunk botMsgId c (acc, w)) in
  length (messages w') = length (messages w)
  /\ (exists msg',
        nth_error (messages w') i = Some msg'
        /\ id msg' = id msg /\ sender msg' = sender msg
        /\ (id msg <> botMsgId -> msg' = msg))
  /\ isOpen w' = isOpen w /\ input w' = input w
  /\ isLoading w' = isLoading w /\ chatSessionRef w' = chatSessionRef w.
Proof.
  intros Hi w'. subst w'.
  destruct (JS.truthy_opt (GenAI.text c)) eqn:E.
  - rewrite chunk_truthy by exact E. setters.
    split; [apply replaceText_length|].
    split; [|repeat split].
    unfold replaceText. rewrite nth_error_map, Hi. simpl.
    destruct (String.eqb_spec (id msg) botMsgId) as [Eq|Ne].
    + eexists. split; [reflexivity|]. simpl. repeat split. tauto.
    + exists msg. repeat split.
  - rewrite chunk_falsy by exact E. simpl.
    split; [reflexivity|]. split; [|repeat split].
    exists msg. repeat split. exact Hi.
Qed.

Lemma fragment_update_frame_witness :
  let w := Samples.ready "" in
  let w' := snd (handleSend_chunk "1006" (Samples.fragment "Hel") ("", w)) in
  length (messages w') = length (messages w)
  /\ (exists msg',
        nth_error (messages w') 0 = Some msg'
        /\ id msg' = "init" /\ sender msg' = bot
        /\ ("init" <> "1006" ->
            msg' = {| id := "init"; sender := bot; text := GREETING |}))
  /\ isOpen w' = isOpen w /\ input w' = input w
  /\ isLoading w' = isLoading w /\ chatSessionRef w' = chatSessionRef w.
Proof.
  apply (fragment_update_frame "1006" (Samples.fragment "Hel") ""
           (Samples.ready "") 0
           {| id := "init"; sender := bot; text := GREETING |}).
  reflexivity.
Defined.

Lemma consume_app (b : string) (pre post : list GenAI.GenerateContentResponse)
  (st : string * State) :
  consume b (pre ++ post) st = consume b post (consume b pre st).
Proof. unfold consume. apply fold_left_app. Qed.

Lemma step_fragment_falsy (props : ChatbotProps) (k : nat)
  (c : GenAI.GenerateContentResponse) (m : Machine) :
  JS.truthy_opt (GenAI.text c) = false -> step props (Fragment k c) m = m.
Proof.
  intros E. cbn [step].
  destruct (nth_error (tasks m) k) as [[inp [|b acc|]]|] eqn:Hk;
    try reflexivity.
  rewrite chunk_falsy, E by exact E.
  unfold with_widget, with_phase; simpl.
  rewrite set_nth_same by exact Hk. now destruct m.
Qed.

(** C8.  A fragment whose text is empty or absent is a no-op of the loop:
    the accumulator and the widget state stay as they are, the widget among
    its events is not touched at all (no state update, no render), and the
    loop leaves the same state with or without the fragment.  So after any
    initial part [pre] of the fragments the accumulator and the text of the
    placeholder are the concatenation of the non-empty texts of [pre]. *)
Theorem falsy_fragment_is_noop (c : GenAI.GenerateContentResponse) :
  JS.truthy_opt (GenAI.text c) = false ->
  (forall botMsgId st, handleSend_chunk botMsgId c st = st)
  /\ (forall props k m, step props (Fragment k c) m = m)
  /\ (forall botMsgId pre post st,
        consume botMsgId (pre ++ c :: post) st
        = consume botMsgId (pre ++ post) st)
  /\ (forall now w pre,
        let botMsgId := JS.toString (now + 1) in
        let after := consume botMsgId pre ("", fst (handleSend_opened now w)) in
        fst after = Spec.concatenation_nonempty pre
        /\ exists earlier,
             messages (snd after) =
               earlier ++ [ {| id := botMsgId; sender := bot;
                               text := Spec.concatenation_nonempty pre |} ]).
Proof.
  intros E. repeat split.
  - intros b st. now apply chunk_falsy.
  - intros props k m. now apply step_fragment_falsy.
  - intros b pre post st. rewrite !consume_app.
    generalize (consume b pre st). intros st'.
    unfold consume. cbn [fold_left]. now rewrite chunk_falsy.
  - rewrite consume_after_opened. simpl.
    symmetry. apply concatenation_nonempty_eq.
  - rewrite consume_after_opened. setters.
    rewrite concatenation_nonempty_eq. eexists. reflexivity.
Qed.

Lemma falsy_fragment_is_noop_witness :
  let c := Samples.fragment "" in
  (forall botMsgId st, handleSend_chunk botMsgId c st = st)
  /\ (forall props k m, step props (Fragment k c) m = m)
  /\ (forall botMsgId pre post st,
        consume botMsgId (pre ++ c :: post) st
        = consume botMsgId (pre ++ post) st)
  /\ (forall now w pre,
        let botMsgId := JS.toString (now + 1) in
        let after := consume botMsgId pre ("", fst (handleSend_opened now w)) in
        fst after = Spec.concatenation_nonempty pre
        /\ exists earlier,
             messages (snd after) =
               earlier ++ [ {| id := botMsgId; sender := bot;
                               text := Spec.concatenation_nonempty pre |} ]).
Proof.
  apply (falsy_fragment_is_noop (Samples.fragment "")). reflexivity.
Defined.

(** The loop on "Hel", nothing, "", "lo": the placeholder reads "Hello". *)
Example consume_hello :
  messages
    (snd (consume "1006"
            [Samples.fragment "Hel"; Samples.no_text; Samples.fragment "";
             Samples.fragment "lo"]
            ("", fst (handleSend_opened 1005 (Samples.ready "")))))
  = [ {| id := "init"; sender := bot; text := GREETING |};
      {| id := "1006"; sender := bot; text := "Hello" |} ].
Proof. reflexivity. Qed.

(** C3.  When the stream raises after it delivered fragments, the message
    list ends with the placeholder, whose text is the concatenation of the
    fragments delivered before the failure, followed by one bot message
    with the fixed apology; exactly the earlier messages and the user
    message come before them, untouched when none of them has the
    placeholder's id; and the in-flight flag is false. *)
Theorem stream_failure_keeps_partial_text
  (props : ChatbotProps) (e : Run) (w : State) (stream : GenAI.ResponseStream) :
  Spec.whitespace_only (input w) = false -> chatSessionRef w <> None ->
  response e = JS.Normal stream -> GenAI.ending stream = GenAI.Raised ->
  let final := fst (handleSend props e w) in
  let botMsgId := JS.toString (now_bot e + 1) in
  let userMsg :=
    {| id := JS.toString (now_user e); sender := user; text := input w |} in
  (exists earlier,
     messages final =
       earlier
       ++ [ {| id := botMsgId; sender := bot;
               text := Spec.concatenation (GenAI.fragments stream) |};
            {| id := JS.toString (now_catch e); sender := bot;
               text := APOLOGY |} ]
     /\ length earlier = length (messages w ++ [userMsg])
     /\ (~ In botMsgId (map id (messages w ++ [userMsg])) ->
         earlier = messages w ++ [userMsg]))
  /\ isLoading final = false.
Proof.
  intros Hw Hc Hr He final botMsgId userMsg. subst final.
  destruct (handleSend_raised props e w stream
              (returns_early_false w Hw Hc) Hr He) as (chat & _ & ->).
  cbn [fst]. split; [|reflexivity].
  exists (Derived.earlier_messages e w stream). setters.
  split; [reflexivity|]. unfold Derived.earlier_messages.
  fold botMsgId userMsg.
  destruct (Derived.some_text (GenAI.fragments stream)).
  - split; [apply replaceText_length | apply replaceText_fresh].
  - split; [reflexivity | intros _; reflexivity].
Qed.

Lemma stream_failure_keeps_partial_text_witness :
  let final :=
    fst (handleSend Samples.notifying (Samples.hello GenAI.Raised)
           (Samples.ready "Hi")) in
  let userMsg := {| id := "1000"; sender := user; text := "Hi" |} in
  (exists earlier,
     messages final =
       earlier
       ++ [ {| id := "1006"; sender := bot; text := "Hello" |};
            {| id := "1010"; sender := bot; text := APOLOGY |} ]
     /\ length earlier = length (messages initial ++ [userMsg])
     /\ (~ In "1006" (map id (messages initial ++ [userMsg])) ->
         earlier = messages initial ++ [userMsg]))
  /\ isLoading final = false.
Proof.
  apply (stream_failure_keeps_partial_text Samples.notifying
           (Samples.hello GenAI.Raised) (Samples.ready "Hi")
           {| GenAI.fragments := [Samples.fragment "Hel"; Samples.fragment "lo"];
              GenAI.ending := GenAI.Raised |});
    solve [reflexivity | discriminate].
Defined.

(** C1, as it is written, fails: three spaces are a non-empty input, and
    with a session and nothing in flight [handleSend] appends nothing. *)
Lemma blank_input_is_not_sent : ~ Spec.every_nonempty_input_is_sent.
Proof.
  intros H.
  destruct (H Samples.silent (Samples.hello GenAI.Completed)
              (Samples.ready "   "))
    as (userMsg & botMsg & Hm & _);
    [discriminate | reflexivity | discriminate |].
  apply (f_equal (@length Message)) in Hm.
  rewrite length_app in Hm. simpl in Hm. lia.
Qed.

(** C1, amended.  For an input that is not empty or whitespace-only, sent
    while a session exists, when the stream completes, the lead-capture
    callback (if the send calls it) returns, and no message of the list,
    the new user message included, has the placeholder's id: the final
    message list is the old one, then one user message with the input
    verbatim, then one bot message whose text is the concatenation of the
    texts of all fragments in delivery order. *)
Theorem send_appends_user_then_bot
  (props : ChatbotProps) (e : Run) (w : State) (stream : GenAI.ResponseStream) :
  Spec.whitespace_only (input w) = false -> chatSessionRef w <> None ->
  response e = JS.Normal stream -> GenAI.ending stream = GenAI.Completed ->
  snd (handleSend_lead props (input w)) = JS.Normal tt ->
  let botMsgId := JS.toString (now_bot e + 1) in
  let userMsg :=
    {| id := JS.toString (now_user e); sender := user; text := input w |} in
  ~ In botMsgId (map id (messages w ++ [userMsg])) ->
  messages (fst (handleSend props e w)) =
    messages w
    ++ [ userMsg;
         {| id := botMsgId; sender := bot;
            text := Spec.concatenation (GenAI.fragments stream) |} ].
Proof.
  intros Hw Hc Hr He Hl botMsgId userMsg Hfresh.
  destruct (handleSend_completed props e w stream
              (returns_early_false w Hw Hc) Hr He) as (chat & _ & ->).
  destruct (handleSend_lead props (input w)) as [calls [[]|]];
    [|discriminate].
  setters. unfold Derived.earlier_messages. fold botMsgId userMsg.
  destruct (Derived.some_text (GenAI.fragments stream)).
  - rewrite replaceText_fresh by exact Hfresh. now rewrite <- app_assoc.
  - now rewrite <- app_assoc.
Qed.

Lemma send_appends_user_then_bot_witness :
  messages
    (fst (handleSend Samples.notifying (Samples.hello GenAI.Completed)
            (Samples.ready "Hi")))
  = messages initial
    ++ [ {| id := "1000"; sender := user; text := "Hi" |};
         {| id := "1006"; sender := bot; text := "Hello" |} ].
Proof.
  apply (send_appends_user_then_bot Samples.notifying
           (Samples.hello GenAI.Completed) (Samples.ready "Hi")
           {| GenAI.fragments := [Samples.fragment "Hel"; Samples.fragment "lo"];
              GenAI.ending := GenAI.Completed |});
    try solve [reflexivity | discriminate].
  simpl. intros [H|[H|[]]]; discriminate.
Defined.

(** A clock that steps back by one millisecond gives the placeholder the id
    of the user message, and the user's text is overwritten. *)
Example colliding_id_overwrites_user_text :
  messages
    (fst (handleSend Samples.silent
            {| now_user := 1006%Z;
               response := response (Samples.hello GenAI.Completed);
               now_bot := 1005%Z; now_catch := 1010%Z |}
            (Samples.ready "Hi")))
  = messages initial
    ++ [ {| id := "1006"; sender := user; text := "Hello" |};
         {| id := "1006"; sender := bot; text := "Hello" |} ].
Proof. reflexivity. Qed.

(** A request that fails leaves the apology as the only bot message. *)
Example refused_request_appends_apology :
  messages (fst (handleSend Samples.silent Samples.refused (Samples.ready "Hi")))
  = messages initial
    ++ [ {| id := "1000"; sender := user; text := "Hi" |};
         {| id := "1010"; sender := bot; text := APOLOGY |} ].
Proof. reflexivity. Qed.

(** A stream that raises leaves two bot messages behind the user's. *)
Example raised_stream_appends_two_bot_messages :
  messages
    (fst (handleSend Samples.silent (Samples.hello GenAI.Raised)
            (Samples.ready "Hi")))
  = messages initial
    ++ [ {| id := "1000"; sender := user; text := "Hi" |};
         {| id := "1006"; sender := bot; text := "Hello" |};
         {| id := "1010"; sender := bot; text := APOLOGY |} ].
Proof. reflexivity. Qed.

(** A lead-capture callback that throws is caught like a failed stream. *)
Example throwing_callback_appends_apology :
  messages
    (fst (handleSend {| onLeadCapture := Some (fun _ => JS.Throw) |}
            (Samples.hello GenAI.Completed) (Samples.ready "booking")))
  = messages initial
    ++ [ {| id := "1000"; sender := user; text := "booking" |};
         {| id := "1006"; sender := bot; text := "Hello" |};
         {| id := "1010"; sender := bot; text := APOLOGY |} ].
Proof. reflexivity. Qed.

(** ** The lead heuristic *)

Lemma lead_calls_app (l1 l2 : list Call) :
  Spec.lead_calls (l1 ++ l2) = Spec.lead_calls l1 ++ Spec.lead_calls l2.
Proof. apply flat_map_app. Qed.

(** C4.  With a lead-capture callback, for a send that passes the guard:
    when the stream completes, the callback is called once, with the
    interest "General Inquiry (Chat)" and no name, if the input contains
    "booking" or "appointment" without regard to case, and it is not called
    otherwise; when the request or the stream fails it is not called. *)
Theorem lead_capture_iff_keyword
  (props : ChatbotProps) (callback : LeadInfo -> JS.Completion unit)
  (e : Run) (w : State) :
  onLeadCapture props = Some callback ->
  Spec.whitespace_only (input w) = false -> chatSessionRef w <> None ->
  let calls := Spec.lead_calls (snd (handleSend props e w)) in
  let keyword :=
    Spec.contains_ignoring_case (input w) "booking"
    \/ Spec.contains_ignoring_case (input w) "appointment" in
  (forall stream,
      response e = JS.Normal stream ->
      GenAI.ending stream = GenAI.Completed ->
      (calls = [ {| name := None; interest := Some "General Inquiry (Chat)" |} ]
       <-> keyword)
      /\ (~ keyword -> calls = []))
  /\ (response e = JS.Throw -> calls = [])
  /\ (forall stream,
        response e = JS.Normal stream ->
        GenAI.ending stream = GenAI.Raised -> calls = []).
Proof.
  intros Hp Hw Hc calls keyword. subst calls.
  pose proof (returns_early_false w Hw Hc) as Hg.
  assert (Hk : mentions_booking (input w) = true <-> keyword)
    by apply mentions_booking_iff.
  split; [|split].
  - intros stream Hr He.
    destruct (handleSend_completed props e w stream Hg Hr He)
      as (chat & _ & ->).
    unfold handleSend_lead. rewrite Hp.
    destruct (mentions_booking (input w)).
    + assert (Hkw : keyword) by now apply Hk.
      destruct (callback _) as [[]|]; cbn [snd];
        try rewrite app_comm_cons, lead_calls_app;
        (split; [split; [intros _; exact Hkw | intros _; reflexivity]
                | intros Hn; now elim Hn]).
    + split; [split; [discriminate | intros Hkw; apply Hk in Hkw; discriminate]
             | reflexivity].
  - intros Hr. destruct (handleSend_rejected props e w Hg Hr)
      as (chat & _ & ->). reflexivity.
  - intros stream Hr He.
    destruct (handleSend_raised props e w stream Hg Hr He) as (chat & _ & ->).
    reflexivity.
Qed.

Lemma lead_capture_iff_keyword_witness :
  Spec.lead_calls
    (snd (handleSend Samples.notifying (Samples.hello GenAI.Completed)
            (Samples.ready "Can I book an appointment for Friday?")))
  = [ {| name := None; interest := Some "General Inquiry (Chat)" |} ]
  <-> (Spec.contains_ignoring_case
         "Can I book an appointment for Friday?" "booking"
       \/ Spec.contains_ignoring_case
            "Can I book an appointment for Friday?" "appointment").
Proof.
  apply (proj1 (lead_capture_iff_keyword Samples.notifying
                  (fun _ => JS.Normal tt) (Samples.hello GenAI.Completed)
                  (Samples.ready "Can I book an appointment for Friday?")
                  eq_refl eq_refl ltac:(discriminate))
               {| GenAI.fragments :=
                    [Samples.fragment "Hel"; Samples.fragment "lo"];
                  GenAI.ending := GenAI.Completed |}
               eq_refl eq_refl).
Defined.

(** The two inputs of the specification's example. *)
Example appointment_notifies_once :
  Spec.lead_calls
    (snd (handleSend Samples.notifying (Samples.hello GenAI.Completed)
            (Samples.ready "Can I book an appointment for Friday?")))
  = [ {| name := None; interest := Some "General Inquiry (Chat)" |} ].
Proof. reflexivity. Qed.

Example hours_do_not_notify :
  Spec.lead_calls
    (snd (handleSend Samples.notifying (Samples.hello GenAI.Completed)
            (Samples.ready "What are your hours?")))
  = [].
Proof. reflexivity. Qed.

(** Without regard to case: capitals match as small letters do. *)
Example capitals_notify :
  mentions_booking "BOOKING please" = true
  /\ mentions_booking "book in G" = false.
Proof. split; reflexivity. Qed.

(** ** The widget among its events *)

(** The send button does nothing while a send is in flight (line 153). *)
Lemma click_while_in_flight_is_noop (props : ChatbotProps) (now : Z)
  (m : Machine) :
  isLoading (widget m) = true -> step props (ClickSend now) m = m.
Proof.
  intros H. cbn [step]. rewrite H. now destruct (isOpen (widget m)).
Qed.

(** [handleSend] itself never reads the in-flight flag. *)
Lemma handleSend_start_ignores_isLoading (now : Z) (w : State) (b : bool) :
  handleSend_start now (setIsLoading b w) = handleSend_start now w.
Proof.
  unfold handleSend_start, returns_early. setters.
  destruct (negb (JS.truthy (JS.trim (input w)))
            || match chatSessionRef w with None => true | Some _ => false end);
    [reflexivity|].
  now destruct (chatSessionRef w).
Qed.

(** C2.  The widget is opened, "Hi" is typed and sent with the Enter key;
    while that send is in flight "again" is typed and Enter is pressed:
    the in-flight flag is set, and still a second user message is appended
    and a second request goes to the provider. *)
Theorem enter_while_in_flight_sends_again :
  let m0 :=
    run Samples.silent
      [ClickTrigger; Change "Hi"; KeyDownEnter 1000; Change "again"]
      (start {| GenAI.chats_created := 0 |}) in
  let m1 := step Samples.silent (KeyDownEnter 1001) m0 in
  isOpen (widget m0) = true
  /\ isLoading (widget m0) = true
  /\ Spec.requests (log m0) = [(0, "Hi")]
  /\ messages (widget m1) =
       messages (widget m0)
       ++ [ {| id := "1001"; sender := user; text := "again" |} ]
  /\ Spec.requests (log m1) = [(0, "Hi"); (0, "again")]
  /\ step Samples.silent (ClickSend 1001) m0 = m0.
Proof. repeat split. Qed.

(** The in-flight property, read word for word, does not hold. *)
Lemma send_in_flight_is_not_noop : ~ Spec.send_in_flight_is_noop.
Proof.
  intros H.
  destruct (H Samples.silent 1001%Z
              (run Samples.silent
                 [ClickTrigger; Change "Hi"; KeyDownEnter 1000; Change "again"]
                 (start {| GenAI.chats_created := 0 |}))
              eq_refl eq_refl) as [Hm _].
  discriminate Hm.
Qed.

(** ** The session *)

Lemma render_invariant (ai0 : GenAI.Client) (m : Machine) :
  match chatSessionRef (widget m) with
  | None => GenAI.chats_created (ai m) = GenAI.chats_created ai0
  | Some chat =>
      chat = GenAI.chats_created ai0
      /\ GenAI.chats_created (ai m) = S (GenAI.chats_created ai0)
  end ->
  Derived.session_invariant ai0 (render m).
Proof.
  unfold Derived.session_invariant, render, useEffect.
  destruct (isOpen (widget m)) eqn:Ho,
           (chatSessionRef (widget m)) as [chat|] eqn:Hc;
    simpl; rewrite ?Ho, ?Hc; intros H; split;
    try discriminate; try assumption; try tauto.
  now rewrite H.
Qed.

Lemma handleSend_start_frame (now : Z) (w w' : State) (calls : list Call)
  (inp : string) :
  handleSend_start now w = Some (w', calls, inp) ->
  isOpen w' = isOpen w /\ chatSessionRef w' = chatSessionRef w.
Proof.
  unfold handleSend_start.
  destruct (returns_early w); [discriminate|].
  destruct (chatSessionRef w) eqn:Hc; [|discriminate].
  intros [= <- _ _]. setters. now rewrite Hc.
Qed.

(** Every event keeps the session invariant. *)
Lemma step_invariant (ai0 : GenAI.Client) (props : ChatbotProps)
  (ev : Event) (m : Machine) :
  Derived.session_invariant ai0 m -> Derived.session_invariant ai0 (step props ev m).
Proof.
  intros Inv. pose proof Inv as [Ho Hs].
  destruct ev; cbn [step];
    repeat match goal with
      | |- context [nth_error ?l ?k] => destruct (nth_error l k) as [[? [| |]]|]
      | |- context [if ?b then _ else _] => destruct b eqn:?
      | |- context [handleSend_lead ?p ?i] =>
          destruct (handleSend_lead p i) as [? [[]|]]
      end;
    try exact Inv;
    try (rewrite chunk_truthy by assumption);
    try (rewrite chunk_falsy by assumption);
    unfold call_handleSend, fail_task;
    try (destruct (handleSend_start now (widget m)) as [[[w' calls'] inp]|] eqn:Hst;
         [apply handleSend_start_frame in Hst as [Hst1 Hst2] | exact Inv]);
    try (apply render_invariant; simpl; rewrite ?Hst2; exact Hs);
    try (split; simpl; assumption).
Qed.

Lemma run_app (props : ChatbotProps) (evs evs' : list Event) (m : Machine) :
  run props (evs ++ evs') m = run props evs' (run props evs m).
Proof. unfold run. apply fold_left_app. Qed.

Lemma run_invariant (ai0 : GenAI.Client) (props : ChatbotProps)
  (evs : list Event) :
  forall m, Derived.session_invariant ai0 m ->
            Derived.session_invariant ai0 (run props evs m).
Proof.
  induction evs as [|ev evs IH]; intros m Inv; simpl; [exact Inv|].
  apply IH. now apply step_invariant.
Qed.

Lemma start_invariant (ai0 : GenAI.Client) :
  Derived.session_invariant ai0 (start ai0).
Proof. split; simpl; [discriminate | reflexivity]. Qed.

Lemma render_keeps_session (chat : GenAI.Chat) (m : Machine) :
  chatSessionRef (widget m) = Some chat ->
  chatSessionRef (widget (render m)) = Some chat.
Proof.
  unfold render, useEffect. intros H. rewrite H.
  destruct (isOpen (widget m)); simpl; exact H.
Qed.

(** No event takes the session away or puts another in its place. *)
Lemma step_keeps_session (props : ChatbotProps) (ev : Event)
  (chat : GenAI.Chat) (m : Machine) :
  chatSessionRef (widget m) = Some chat ->
  chatSessionRef (widget (step props ev m)) = Some chat.
Proof.
  intros Hc.
  destruct ev; cbn [step];
    repeat match goal with
      | |- context [nth_error ?l ?k] => destruct (nth_error l k) as [[? [| |]]|]
      | |- context [if ?b then _ else _] => destruct b eqn:?
      | |- context [handleSend_lead ?p ?i] =>
          destruct (handleSend_lead p i) as [? [[]|]]
      end;
    try exact Hc;
    try (rewrite chunk_truthy by assumption);
    try (rewrite chunk_falsy by assumption);
    unfold call_handleSend, fail_task;
    try (destruct (handleSend_start now (widget m)) as [[[w' calls'] inp]|] eqn:Hst;
         [apply handleSend_start_frame in Hst as [Hst1 Hst2] | exact Hc]);
    try (apply render_keeps_session; simpl; rewrite ?Hst2; exact Hc);
    try (simpl; exact Hc).
Qed.

Lemma run_keeps_session (props : ChatbotProps) (evs : list Event)
  (chat : GenAI.Chat) :
  forall m, chatSessionRef (widget m) = Some chat ->
            chatSessionRef (widget (run props evs m)) = Some chat.
Proof.
  induction evs as [|ev evs IH]; intros m Hc; simpl; [exact Hc|].
  apply IH. now apply step_keeps_session.
Qed.

(** A closed widget that has started no send ignores everything but its
    trigger button. *)
Lemma closed_step (props : ChatbotProps) (ev : Event) (m : Machine) :
  isOpen (widget m) = false -> tasks m = [] -> ev <> ClickTrigger ->
  step props ev m = m.
Proof.
  intros Ho Ht Hev.
  destruct ev; cbn [step]; rewrite ?Ho, ?Ht; try reflexivity;
    try (now destruct k).
  now elim Hev.
Qed.

Lemma never_opened_run (props : ChatbotProps) (evs : list Event) (m : Machine) :
  isOpen (widget m) = false -> tasks m = [] -> Spec.never_opened evs ->
  run props evs m = m.
Proof.
  intros Ho Ht. induction 1 as [|ev evs Hev _ IH]; simpl; [reflexivity|].
  now rewrite closed_step.
Qed.

(** C6.  From the mounting of a widget on, over every sequence of
    events: as long as the trigger button was never clicked there is no
    session and the client has created nothing, and the first click
    creates the session; an open widget always has the session; the client
    creates one chat at most for the widget; and once the widget holds a
    session, every later event leaves the same handle in place and creates
    no further chat. *)
Theorem at_most_one_session
  (props : ChatbotProps) (ai0 : GenAI.Client) (evs evs' : list Event) :
  let m := run props evs (start ai0) in
  let m' := run props (evs ++ evs') (start ai0) in
  let n0 := GenAI.chats_created ai0 in
  (Spec.never_opened evs ->
     chatSessionRef (widget m) = None
     /\ GenAI.chats_created (ai m) = n0
     /\ chatSessionRef (widget (step props ClickTrigger m)) = Some n0
     /\ GenAI.chats_created (ai (step props ClickTrigger m)) = S n0)
  /\ (isOpen (widget m) = true -> chatSessionRef (widget m) = Some n0)
  /\ GenAI.chats_created (ai m) <= S n0
  /\ (forall chat,
        chatSessionRef (widget m) = Some chat ->
        chatSessionRef (widget m') = Some chat
        /\ GenAI.chats_created (ai m') = GenAI.chats_created (ai m)
        /\ GenAI.chats_created (ai m) = S n0).
Proof.
  intros m m' n0.
  pose proof (run_invariant ai0 props evs _ (start_invariant ai0)) as [Ho Hs].
  fold m in Ho, Hs.
  split; [|split; [|split]].
  - intros Hn. subst m. rewrite never_opened_run by (auto; reflexivity).
    repeat split.
  - intros H. specialize (Ho H).
    destruct (chatSessionRef (widget m)) as [chat|]; [|contradiction].
    now destruct Hs as [-> _].
  - destruct (chatSessionRef (widget m)); fold n0 in Hs; lia.
  - intros chat Hc.
    assert (Hc' : chatSessionRef (widget m') = Some chat).
    { subst m'. rewrite run_app. now apply run_keeps_session. }
    pose proof (run_invariant ai0 props (evs ++ evs') _ (start_invariant ai0))
      as [_ Hs'].
    fold m' in Hs'. rewrite Hc in Hs. rewrite Hc' in Hs'.
    fold n0 in Hs, Hs'. split; [exact Hc'|]. lia.
Qed.

Lemma at_most_one_session_witness :
  let evs := [ClickTrigger; Change "Hi"; KeyDownEnter 1000] in
  let evs' := [ClickTrigger; ClickTrigger; StreamResolved 0 1005] in
  let ai0 := {| GenAI.chats_created := 3 |} in
  chatSessionRef (widget (run Samples.silent evs (start ai0))) = Some 3
  /\ chatSessionRef (widget (run Samples.silent (evs ++ evs') (start ai0)))
     = Some 3
  /\ GenAI.chats_created (ai (run Samples.silent (evs ++ evs') (start ai0)))
     = 4.
Proof.
  intros evs evs' ai0.
  destruct (at_most_one_session Samples.silent ai0 evs evs')
    as (_ & Hopen & _ & Hkeep).
  specialize (Hopen eq_refl). destruct (Hkeep 3 Hopen) as (H1 & H2 & H3).
  split; [exact Hopen|]. split; [exact H1|]. now rewrite H2, H3.
Defined.

(** ** One send among the events *)

Lemma outward_app (l1 l2 : list Call) :
  Derived.outward (l1 ++ l2) = Derived.outward l1 ++ Derived.outward l2.
Proof. apply filter_app. Qed.

Lemma outward_scroll (w : State) : Derived.outward (scrollToBottom w) = [].
Proof. unfold scrollToBottom. now destruct (isOpen w). Qed.

(** With a session in place a render only scrolls. *)
Lemma render_with_session (chat : GenAI.Chat) (m : Machine) :
  chatSessionRef (widget m) = Some chat ->
  render m = with_calls (scrollToBottom (widget m)) m.
Proof.
  unfold render, useEffect. intros H. rewrite H.
  now destruct (isOpen (widget m)).
Qed.

Lemma nth_error_set_nth {A} (k : nat) (x y : A) (l : list A) :
  nth_error l k = Some y -> nth_error (set_nth k x l) k = Some x.
Proof.
  revert k. induction l as [|z l IH]; intros [|k]; simpl; try discriminate.
  - reflexivity.
  - apply IH.
Qed.

Lemma nth_error_last {A} (l : list A) (x : A) :
  nth_error (l ++ [x]) (length l) = Some x.
Proof. rewrite nth_error_app2, Nat.sub_diag by lia. reflexivity. Qed.

(** The events of a send that never started find no call to act on. *)
Lemma stream_events_without_task (props : ChatbotProps) (k : nat) (e : Run)
  (m : Machine) :
  nth_error (tasks m) k = None ->
  run props (tl (events_of k e)) m = m.
Proof.
  intros Hk. unfold events_of. cbn [tl].
  assert (Hfr : forall cs, run props (map (Fragment k) cs) m = m).
  { induction cs as [|c cs IH]; simpl; [reflexivity|]. now rewrite Hk. }
  destruct (response e) as [stream|]; simpl.
  - rewrite Hk. change (fold_left (fun m ev => step props ev m))
      with (run props).
    rewrite run_app, Hfr. simpl.
    destruct (GenAI.ending stream); simpl; now rewrite Hk.
  - now rewrite Hk.
Qed.

(** One fragment event is one turn of the loop of its call. *)
Lemma step_fragment (props : ChatbotProps) (k : nat)
  (c : GenAI.GenerateContentResponse) (m : Machine)
  (inp b acc : string) (chat : GenAI.Chat) :
  nth_error (tasks m) k
  = Some {| captured_input := inp; phase := Streaming b acc |} ->
  chatSessionRef (widget m) = Some chat ->
  let r := handleSend_chunk b c (acc, widget m) in
  let m1 := step props (Fragment k c) m in
  widget m1 = snd r
  /\ nth_error (tasks m1) k
     = Some {| captured_input := inp; phase := Streaming b (fst r) |}
  /\ Derived.outward (log m1) = Derived.outward (log m).
Proof.
  intros Hk Hc r m1. subst r m1. cbn [step]. rewrite Hk.
  destruct (JS.truthy_opt (GenAI.text c)) eqn:E.
  - rewrite chunk_truthy by exact E.
    erewrite render_with_session by (simpl; exact Hc).
    simpl. rewrite outward_app, outward_scroll, app_nil_r.
    split; [reflexivity|]. split; [|reflexivity].
    eapply nth_error_set_nth. exact Hk.
  - rewrite chunk_falsy by exact E. simpl.
    split; [reflexivity|]. split; [|reflexivity].
    eapply nth_error_set_nth. exact Hk.
Qed.

(** The fragment events of a call are its loop. *)
Lemma run_fragments (props : ChatbotProps) (k : nat) (inp b : string)
  (chat : GenAI.Chat) (cs : list GenAI.GenerateContentResponse) :
  forall (m : Machine) (acc : string),
    nth_error (tasks m) k
    = Some {| captured_input := inp; phase := Streaming b acc |} ->
    chatSessionRef (widget m) = Some chat ->
    let r := consume b cs (acc, widget m) in
    let m' := run props (map (Fragment k) cs) m in
    widget m' = snd r
    /\ nth_error (tasks m') k
       = Some {| captured_input := inp; phase := Streaming b (fst r) |}
    /\ Derived.outward (log m') = Derived.outward (log m).
Proof.
  induction cs as [|c cs IH]; intros m acc Hk Hc; cbn zeta.
  - simpl. auto.
  - destruct (step_fragment props k c m inp b acc chat Hk Hc)
      as (Hw & Ht & Hl).
    destruct (IH (step props (Fragment k c) m) _ Ht
                (step_keeps_session props _ chat m Hc)) as (Hw' & Ht' & Hl').
    rewrite Hw, <- surjective_pairing in Hw', Ht'.
    change (run props (map (Fragment k) (c :: cs)) m)
      with (run props (map (Fragment k) cs) (step props (Fragment k c) m)).
    change (consume b (c :: cs) (acc, widget m))
      with (consume b cs (handleSend_chunk b c (acc, widget m))).
    rewrite Hl' , Hl. auto.
Qed.

Lemma run_cons (props : ChatbotProps) (ev : Event) (evs : list Event)
  (m : Machine) :
  run props (ev :: evs) m = run props evs (step props ev m).
Proof. reflexivity. Qed.

(** The Enter key starts call number [length (tasks m)]. *)
Lemma enter_starts (props : ChatbotProps) (now : Z) (m : Machine) :
  isOpen (widget m) = true -> returns_early (widget m) = false ->
  exists chat w1,
    chatSessionRef w1 = Some chat
    /\ handleSend_start now (widget m)
       = Some (w1, [sendMessageStream chat (input (widget m))], input (widget m))
    /\ Derived.call_at (step props (KeyDownEnter now) m) (length (tasks m))
         (input (widget m)) Awaiting w1
         (Derived.outward (log m) ++ [sendMessageStream chat (input (widget m))]).
Proof.
  intros Ho Hg.
  destruct (handleSend_start_some now (widget m) Hg) as (chat & Hc & Hs).
  exists chat. eexists. split; [|split; [exact Hs|]].
  - exact Hc.
  - cbn [step]. rewrite Ho. unfold call_handleSend. rewrite Hs.
    erewrite render_with_session by exact Hc.
    split; [|split]; simpl.
    + apply nth_error_last.
    + reflexivity.
    + now rewrite !outward_app, outward_scroll, app_nil_r.
Qed.

Lemma resolved_opens (props : ChatbotProps) (k : nat) (now : Z) (m : Machine)
  (inp : string) (w : State) (calls : list Call) (chat : GenAI.Chat) :
  Derived.call_at m k inp Awaiting w calls -> chatSessionRef w = Some chat ->
  Derived.call_at (step props (StreamResolved k now) m) k inp
    (Streaming (snd (handleSend_opened now w)) "")
    (fst (handleSend_opened now w)) calls.
Proof.
  intros (Hk & <- & <-) Hc. cbn [step]. rewrite Hk.
  cbn [handleSend_opened fst snd].
  erewrite render_with_session by exact Hc.
  split; [|split]; simpl.
  - eapply nth_error_set_nth. exact Hk.
  - reflexivity.
  - now rewrite outward_app, outward_scroll, app_nil_r.
Qed.

Lemma fail_task_settles (k : nat) (t : Task) (now : Z) (m : Machine)
  (chat : GenAI.Chat) :
  nth_error (tasks m) k = Some t ->
  chatSessionRef (widget m) = Some chat ->
  Derived.call_at (fail_task k t now m) k (captured_input t) Finished
    (handleSend_finally (fst (handleSend_catch now (widget m))))
    (Derived.outward (log m) ++ [console_error]).
Proof.
  intros Hk Hc. unfold fail_task. cbn [handleSend_catch].
  erewrite render_with_session by exact Hc.
  split; [|split]; simpl.
  - eapply nth_error_set_nth. exact Hk.
  - reflexivity.
  - now rewrite !outward_app, outward_scroll, app_nil_r.
Qed.

Lemma rejected_fails (props : ChatbotProps) (k : nat) (now : Z) (m : Machine)
  (inp : string) (w : State) (calls : list Call) (chat : GenAI.Chat) :
  Derived.call_at m k inp Awaiting w calls -> chatSessionRef w = Some chat ->
  Derived.call_at (step props (StreamRejected k now) m) k inp Finished
    (handleSend_finally (fst (handleSend_catch now w)))
    (calls ++ [console_error]).
Proof.
  intros (Hk & <- & <-) Hc. cbn [step]. rewrite Hk.
  exact (fail_task_settles k _ now m chat Hk Hc).
Qed.

Lemma raised_fails (props : ChatbotProps) (k : nat) (now : Z) (m : Machine)
  (inp b acc : string) (w : State) (calls : list Call) (chat : GenAI.Chat) :
  Derived.call_at m k inp (Streaming b acc) w calls ->
  chatSessionRef w = Some chat ->
  Derived.call_at (step props (StreamRaised k now) m) k inp Finished
    (handleSend_finally (fst (handleSend_catch now w)))
    (calls ++ [console_error]).
Proof.
  intros (Hk & <- & <-) Hc. cbn [step]. rewrite Hk.
  exact (fail_task_settles k _ now m chat Hk Hc).
Qed.

Lemma fragments_loop (props : ChatbotProps) (k : nat) (m : Machine)
  (inp b acc : string) (w : State) (calls : list Call) (chat : GenAI.Chat)
  (cs : list GenAI.GenerateContentResponse) :
  Derived.call_at m k inp (Streaming b acc) w calls ->
  chatSessionRef w = Some chat ->
  Derived.call_at (run props (map (Fragment k) cs) m) k inp
    (Streaming b (fst (consume b cs (acc, w))))
    (snd (consume b cs (acc, w))) calls.
Proof.
  intros (Hk & <- & <-) Hc.
  destruct (run_fragments props k inp b chat cs m acc Hk Hc) as (Hw & Ht & Hl).
  split; [|split]; assumption.
Qed.

Lemma completed_settles (props : ChatbotProps) (k : nat) (now : Z)
  (m : Machine) (inp b acc : string) (w : State) (calls : list Call)
  (chat : GenAI.Chat) :
  Derived.call_at m k inp (Streaming b acc) w calls ->
  chatSessionRef w = Some chat ->
  match handleSend_lead props inp with
  | (calls2, JS.Normal _) =>
      Derived.call_at (step props (StreamCompleted k now) m) k inp Finished
        (handleSend_finally w) (calls ++ Derived.outward calls2)
  | (calls2, JS.Throw) =>
      Derived.call_at (step props (StreamCompleted k now) m) k inp Finished
        (handleSend_finally (fst (handleSend_catch now w)))
        (calls ++ Derived.outward calls2 ++ [console_error])
  end.
Proof.
  intros (Hk & <- & <-) Hc. cbn [step]. rewrite Hk.
  destruct (handleSend_lead props inp) as [calls2 [[]|]].
  - split; [|split]; simpl.
    + eapply nth_error_set_nth. exact Hk.
    + reflexivity.
    + apply outward_app.
  - pose proof (fail_task_settles k {| captured_input := inp;
                                        phase := Streaming b acc |}
                  now (with_calls calls2 m) chat Hk Hc) as H.
    cbn [with_calls log widget captured_input] in H.
    now rewrite outward_app, <- app_assoc in H.
Qed.

Lemma outward_lead (props : ChatbotProps) (inp : string) :
  Derived.outward (fst (handleSend_lead props inp)) = fst (handleSend_lead props inp).
Proof.
  unfold handleSend_lead.
  destruct (mentions_booking inp); [|reflexivity].
  now destruct (onLeadCapture props).
Qed.

(** The events of one send, with nothing else in between, do to the widget
    and to the outside what [handleSend] does in one piece. *)
Theorem handleSend_is_its_events (props : ChatbotProps) (e : Run) (m : Machine) :
  isOpen (widget m) = true ->
  let m' := run props (events_of (length (tasks m)) e) m in
  widget m' = fst (handleSend props e (widget m))
  /\ Derived.outward (log m')
     = Derived.outward (log m) ++ snd (handleSend props e (widget m)).
Proof.
  intros Ho m'. subst m'.
  assert (Hev : events_of (length (tasks m)) e
                = KeyDownEnter (now_user e)
                  :: tl (events_of (length (tasks m)) e)) by reflexivity.
  rewrite Hev, run_cons. clear Hev.
  destruct (returns_early (widget m)) eqn:Hg.
  - cbn [step]. rewrite Ho. unfold call_handleSend, handleSend.
    rewrite handleSend_start_none by exact Hg.
    rewrite stream_events_without_task
      by (apply nth_error_None; apply Nat.le_refl).
    now rewrite app_nil_r.
  - destruct (enter_starts props (now_user e) m Ho Hg)
      as (chat & w1 & Hc & Hs & H1).
    unfold handleSend. rewrite Hs.
    unfold events_of. cbn [tl].
    destruct (response e) as [stream|].
    + rewrite run_cons, run_app.
      apply (resolved_opens props _ (now_bot e) _ _ _ _ chat) in H1;
        [|exact Hc].
      destruct (handleSend_opened (now_bot e) w1) as [w2 b] eqn:Ho2.
      cbn [fst snd] in H1.
      assert (Hc2 : chatSessionRef w2 = Some chat).
      { unfold handleSend_opened in Ho2. injection Ho2 as <- _. exact Hc. }
      apply (fragments_loop props _ _ _ _ _ _ _ chat (GenAI.fragments stream))
        in H1; [|exact Hc2].
      destruct (consume b (GenAI.fragments stream) ("", w2)) as [acc w3] eqn:Hl.
      cbn [fst snd] in H1.
      assert (Hc3 : chatSessionRef w3 = Some chat).
      { destruct H1 as (_ & <- & _). apply run_keeps_session.
        apply step_keeps_session. cbn [step]. rewrite Ho.
        unfold call_handleSend. rewrite Hs.
        erewrite render_with_session by exact Hc. exact Hc. }
      destruct (GenAI.ending stream); cbn [run fold_left].
      * pose proof (completed_settles props _ (now_catch e) _ _ _ _ _ _ chat
                      H1 Hc3) as H4.
        pose proof (outward_lead props (input (widget m))) as Hol.
        destruct (handleSend_lead props (input (widget m)))
          as [calls2 [[]|]]; cbn [fst] in Hol;
          destruct H4 as (_ & -> & ->); rewrite Hol, <- ?app_assoc;
          split; reflexivity.
      * apply (raised_fails props _ (now_catch e) _ _ _ _ _ _ chat) in H1;
          [|exact Hc3].
        destruct H1 as (_ & -> & ->). rewrite <- app_assoc.
        split; reflexivity.
    + cbn [run fold_left].
      apply (rejected_fails props _ (now_catch e) _ _ _ _ chat) in H1;
        [|exact Hc].
      destruct H1 as (_ & -> & ->). rewrite <- app_assoc.
      split; reflexivity.
Qed.

(** ** The one-shot helpers *)

Section OneShot.

Variable generateContent :
  GenAI.GenerateContentParameters -> JS.Completion GenAI.GenerateContentResponse.
Variable Lead : Type.
Variable JSON_stringify : list Lead -> JS.Completion string.

(** C7.  The one-shot helpers return a string whatever the provider does,
    and when the provider call fails they return their fixed fallback
    strings; so does [analyzeLeads] when the leads cannot be serialized. *)
Theorem one_shot_helpers_never_raise
  (topic : string) (type : geminiService.ContentType) (leadsData : list Lead) :
  (exists s,
      geminiService.generateMarketingContent generateContent topic type
      = JS.Normal s)
  /\ (exists s,
        geminiService.analyzeLeads generateContent Lead JSON_stringify leadsData
        = JS.Normal s)
  /\ (generateContent
        {| GenAI.model := "gemini-3-flash-preview";
           GenAI.contents := geminiService.marketing_prompt topic type |}
      = JS.Throw ->
      geminiService.generateMarketingContent generateContent topic type =
        JS.Normal
          "Unable to generate content at this time. Please try again later.")
  /\ (forall json,
        JSON_stringify leadsData = JS.Normal json ->
        generateContent
          {| GenAI.model := "gemini-3-flash-preview";
             GenAI.contents := geminiService.leads_prompt json |}
        = JS.Throw ->
        geminiService.analyzeLeads generateContent Lead JSON_stringify leadsData
        = JS.Normal "Analysis unavailable.")
  /\ (JSON_stringify leadsData = JS.Throw ->
      geminiService.analyzeLeads generateContent Lead JSON_stringify leadsData
      = JS.Normal "Analysis unavailable.").
Proof.
  unfold geminiService.generateMarketingContent, geminiService.analyzeLeads.
  cbv zeta. unfold geminiService.MODEL.
  split; [|split; [|split; [|split]]].
  - destruct (generateContent _); simpl; eauto.
  - destruct (JSON_stringify leadsData) as [json|]; simpl; [|eauto].
    destruct (generateContent _); simpl; eauto.
  - intros H. now rewrite H.
  - intros json Hj H. rewrite Hj. simpl. now rewrite H.
  - intros Hj. now rewrite Hj.
Qed.

(** C10.  When the provider call succeeds with an empty or absent text,
    [generateMarketingContent] returns "Content generation failed.", which
    is neither the text of the response nor the fallback of the error
    path; [analyzeLeads] returns "No insights available." in the same
    way. *)
Theorem empty_response_gives_own_message
  (topic : string) (type : geminiService.ContentType) (leadsData : list Lead)
  (json : string) (response : GenAI.GenerateContentResponse) :
  JS.truthy_opt (GenAI.text response) = false ->
  (generateContent
     {| GenAI.model := "gemini-3-flash-preview";
        GenAI.contents := geminiService.marketing_prompt topic type |}
   = JS.Normal response ->
   geminiService.generateMarketingContent generateContent topic type
   = JS.Normal "Content generation failed."
   /\ GenAI.text response <> Some "Content generation failed."
   /\ "Content generation failed."
      <> "Unable to generate content at this time. Please try again later.")
  /\ (JSON_stringify leadsData = JS.Normal json ->
      generateContent
        {| GenAI.model := "gemini-3-flash-preview";
           GenAI.contents := geminiService.leads_prompt json |}
      = JS.Normal response ->
      geminiService.analyzeLeads generateContent Lead JSON_stringify leadsData
      = JS.Normal "No insights available."
      /\ GenAI.text response <> Some "No insights available."
      /\ "No insights available." <> "Analysis unavailable.").
Proof.
  intros E.
  unfold geminiService.generateMarketingContent, geminiService.analyzeLeads.
  cbv zeta. unfold geminiService.MODEL.
  split.
  - intros H. rewrite H. simpl. unfold JS.or_else. rewrite E.
    repeat split; [|discriminate].
    intros Ht. rewrite Ht in E. discriminate.
  - intros Hj H. rewrite Hj. simpl. rewrite H. simpl.
    unfold JS.or_else. rewrite E.
    repeat split; [|discriminate].
    intros Ht. rewrite Ht in E. discriminate.
Qed.

End OneShot.

Lemma one_shot_helpers_never_raise_witness :
  geminiService.generateMarketingContent (fun _ => JS.Throw)
    "teeth whitening" geminiService.service_desc
  = JS.Normal "Unable to generate content at this time. Please try again later."
  /\ geminiService.analyzeLeads (fun _ => JS.Throw) unit
       (fun _ => JS.Normal "[]") [tt]
     = JS.Normal "Analysis unavailable.".
Proof.
  destruct (one_shot_helpers_never_raise (fun _ => JS.Throw) unit
              (fun _ => JS.Normal "[]") "teeth whitening"
              geminiService.service_desc [tt])
    as (_ & _ & Hm & Hl & _).
  split; [apply Hm | apply (Hl "[]")]; reflexivity.
Defined.

Lemma empty_response_gives_own_message_witness :
  geminiService.generateMarketingContent
    (fun _ => JS.Normal (Samples.fragment ""))
    "teeth whitening" geminiService.blog
  = JS.Normal "Content generation failed."
  /\ geminiService.analyzeLeads (fun _ => JS.Normal (Samples.fragment "")) unit
       (fun _ => JS.Normal "[]") [tt]
     = JS.Normal "No insights available.".
Proof.
  destruct (empty_response_gives_own_message
              (fun _ => JS.Normal (Samples.fragment "")) unit
              (fun _ => JS.Normal "[]") "teeth whitening" geminiService.blog
              [tt] "[]" (Samples.fragment "") eq_refl)
    as (Hm & Hl).
  split; [apply Hm | apply Hl]; reflexivity.
Defined.

(* ===================================================================== *)
(** * Part III: more about the widget and the service *)
(* ===================================================================== *)

(** ** What one event does *)

Lemma requests_app (l1 l2 : list Call) :
  Spec.requests (l1 ++ l2) = Spec.requests l1 ++ Spec.requests l2.
Proof. apply flat_map_app. Qed.

Lemma requests_scroll (w : State) : Spec.requests (scrollToBottom w) = [].
Proof. unfold scrollToBottom. now destruct (isOpen w). Qed.

Lemma requests_lead (props : ChatbotProps) (inp : string) :
  Spec.requests (fst (handleSend_lead props inp)) = [].
Proof.
  unfold handleSend_lead. destruct (mentions_booking inp); [|reflexivity].
  now destruct (onLeadCapture props).
Qed.

(** A render leaves the messages, the running calls, the in-flight flag,
    the input and the requests as they are. *)
Lemma render_frame (m : Machine) :
  messages (widget (render m)) = messages (widget m)
  /\ tasks (render m) = tasks m
  /\ isLoading (widget (render m)) = isLoading (widget m)
  /\ input (widget (render m)) = input (widget m)
  /\ isOpen (widget (render m)) = isOpen (widget m)
  /\ Spec.requests (log (render m)) = Spec.requests (log m).
Proof.
  unfold render, useEffect.
  destruct (isOpen (widget m)) eqn:Ho, (chatSessionRef (widget m)); simpl;
    rewrite requests_app, requests_scroll, app_nil_r; auto 10.
Qed.

Lemma call_handleSend_effect (ev : Event) (now : Z) (m : Machine) :
  ((forall now', ev <> KeyDownEnter now') -> isLoading (widget m) = false) ->
  Derived.step_effect ev m (call_handleSend now m).
Proof.
  intros Hload. unfold call_handleSend.
  destruct (returns_early (widget m)) eqn:Hg.
  - rewrite handleSend_start_none by exact Hg. now apply Derived.effect_none.
  - destruct (handleSend_start_some now (widget m) Hg) as (chat & Hc & ->).
    match goal with |- Derived.step_effect _ _ (render ?x) =>
      destruct (render_frame x) as (Hm & Ht & Hl & _ & _ & Hr) end.
    apply (Derived.effect_start ev m _ now chat (input (widget m)) Hload).
    + rewrite Hm. reflexivity.
    + rewrite Ht. reflexivity.
    + rewrite Hl. reflexivity.
    + rewrite Hr. simpl. now rewrite requests_app.
Qed.

Lemma fail_task_effect (ev : Event) (k : nat) (t : Task) (now : Z)
  (m0 m : Machine) :
  nth_error (tasks m0) k = Some t -> Derived.active t = true ->
  widget m = widget m0 -> tasks m = tasks m0 ->
  Spec.requests (log m) = Spec.requests (log m0) ->
  Derived.step_effect ev m0 (fail_task k t now m).
Proof.
  intros Hk Ha Hw Ht Hr. unfold fail_task. cbn [handleSend_catch].
  match goal with |- Derived.step_effect _ _ (render ?x) =>
    destruct (render_frame x) as (Hm' & Ht' & Hl' & _ & _ & Hr') end.
  apply (Derived.effect_finish ev m0 _ k t
           [ {| id := JS.toString now; sender := bot; text := APOLOGY |} ]
           Hk Ha).
  - rewrite Hm'. simpl. now rewrite Hw.
  - repeat constructor.
  - rewrite Ht'. simpl. now rewrite Ht.
  - rewrite Hl'. reflexivity.
  - rewrite Hr'. simpl. now rewrite requests_app, Hr, app_nil_r.
Qed.

(** Every event does nothing to the conversation, or is one piece of one
    call of [handleSend]. *)
Lemma step_has_effect (props : ChatbotProps) (ev : Event) (m : Machine) :
  Derived.step_effect ev m (step props ev m).
Proof.
  destruct ev as [|v|now|now|k now|k now|k c|k now|k now]; cbn [step].
  - destruct (render_frame
                (with_widget (setIsOpen (negb (isOpen (widget m))) (widget m)) m))
      as (Hm & Ht & Hl & _ & _ & Hr).
    now apply Derived.effect_none.
  - destruct (isOpen (widget m)); now apply Derived.effect_none.
  - destruct (isOpen (widget m)); [|now apply Derived.effect_none].
    apply call_handleSend_effect. intros H. now elim (H now).
  - destruct (isOpen (widget m)); [|now apply Derived.effect_none].
    destruct (isLoading (widget m)) eqn:Hl; simpl;
      [now apply Derived.effect_none|].
    destruct (negb (JS.truthy (JS.trim (input (widget m)))));
      [now apply Derived.effect_none|].
    apply call_handleSend_effect. intros _. exact Hl.
  - destruct (nth_error (tasks m) k) as [[inp [|b acc|]]|] eqn:Hk;
      try now apply Derived.effect_none.
    cbn [handleSend_opened].
    match goal with |- Derived.step_effect _ _ (render ?x) =>
      destruct (render_frame x) as (Hm & Ht & Hl & _ & _ & Hr) end.
    now apply (Derived.effect_open _ m _ k now inp Hk).
  - destruct (nth_error (tasks m) k) as [[inp [|b acc|]]|] eqn:Hk;
      try now apply Derived.effect_none.
    now apply (fail_task_effect _ k _ now m m Hk).
  - destruct (nth_error (tasks m) k) as [[inp [|b acc|]]|] eqn:Hk;
      try now apply Derived.effect_none.
    destruct (JS.truthy_opt (GenAI.text c)) eqn:E.
    + rewrite chunk_truthy by exact E.
      match goal with |- Derived.step_effect _ _ (render ?x) =>
        destruct (render_frame x) as (Hm & Ht & Hl & _ & _ & Hr) end.
      apply (Derived.effect_chunk _ m _ k inp b acc
               (acc ++ Spec.fragment_text c)%string Hk); try assumption.
      right. exact Hm.
    + rewrite chunk_falsy by exact E.
      apply (Derived.effect_chunk _ m _ k inp b acc acc Hk);
        try reflexivity.
      now left.
  - destruct (nth_error (tasks m) k) as [[inp [|b acc|]]|] eqn:Hk;
      try now apply Derived.effect_none.
    pose proof (requests_lead props inp) as Hrl.
    destruct (handleSend_lead props inp) as [calls [[]|]]; cbn [fst] in Hrl.
    + apply (Derived.effect_finish _ m _ k _ [] Hk); try reflexivity.
      * simpl. now rewrite app_nil_r.
      * constructor.
      * simpl. now rewrite requests_app, Hrl, app_nil_r.
    + apply (fail_task_effect _ k _ now m (with_calls calls m) Hk);
        try reflexivity.
      simpl. now rewrite requests_app, Hrl, app_nil_r.
  - destruct (nth_error (tasks m) k) as [[inp [|b acc|]]|] eqn:Hk;
      try now apply Derived.effect_none.
    now apply (fail_task_effect _ k _ now m m Hk).
Qed.

(** ** What every sequence of events keeps *)

Lemma set_nth_length {A} (k : nat) (x : A) (l : list A) :
  length (set_nth k x l) = length l.
Proof.
  revert k. induction l as [|y l IH]; intros [|k]; simpl; auto.
Qed.

Lemma map_set_nth {A B} (f : A -> B) (k : nat) (x t : A) (l : list A) :
  nth_error l k = Some t -> f x = f t ->
  map f (set_nth k x l) = map f l.
Proof.
  revert k. induction l as [|y l IH]; intros [|k]; simpl; try discriminate.
  - intros [= ->] ->. reflexivity.
  - intros Hk Hf. now rewrite (IH k Hk Hf).
Qed.

Lemma Forall_set_nth {A} (P : A -> Prop) (k : nat) (x : A) (l : list A) :
  Forall P l -> P x -> Forall P (set_nth k x l).
Proof.
  intros Hl Hx. revert k.
  induction Hl as [|y l Hy Hl IH]; intros [|k]; simpl; auto.
Qed.

Lemma running_map (ts : list Task) :
  Derived.running ts
  = length (filter (fun b : bool => b) (map Derived.active ts)).
Proof.
  unfold Derived.running. induction ts as [|t ts IH]; simpl; [reflexivity|].
  destruct (Derived.active t); simpl; now rewrite IH.
Qed.

Lemma running_set_nth_finish (k : nat) (x t : Task) (l : list Task) :
  nth_error l k = Some t -> Derived.active t = true ->
  Derived.active x = false ->
  S (Derived.running (set_nth k x l)) = Derived.running l.
Proof.
  unfold Derived.running.
  revert k. induction l as [|y l IH]; intros [|k]; simpl; try discriminate.
  - intros [= ->] -> ->. reflexivity.
  - intros Hk Ht Hx. destruct (Derived.active y); simpl;
      now rewrite <- (IH k Hk Ht Hx).
Qed.

Lemma replaceText_labels (b t : string) (l : list Message) :
  map Derived.label (replaceText b t l) = map Derived.label l.
Proof.
  unfold replaceText, Derived.label. rewrite map_map. apply map_ext.
  intros msg. now destruct (id msg =? b)%string.
Qed.

Lemma users_app (l1 l2 : list Message) :
  Derived.users (l1 ++ l2) = Derived.users l1 + Derived.users l2.
Proof.
  unfold Derived.users. now rewrite map_app, filter_app, length_app.
Qed.

Lemma users_bots (l : list Message) :
  Forall (fun msg => sender msg = bot) l -> Derived.users l = 0.
Proof.
  unfold Derived.users. induction 1 as [|msg l Hm _ IH]; simpl;
    [reflexivity|]. now rewrite Hm.
Qed.

Lemma users_replaceText (b t : string) (l : list Message) :
  Derived.users (replaceText b t l) = Derived.users l.
Proof. unfold Derived.users. now rewrite replaceText_senders. Qed.

(** X1.  No sequence of events removes or reorders a message or changes
    the id or the sender of one: the ids and senders of the messages at
    the start are an initial part of those at the end. *)
Theorem run_keeps_labels (props : ChatbotProps) (evs : list Event)
  (m : Machine) :
  exists added,
    map Derived.label (messages (widget (run props evs m)))
    = map Derived.label (messages (widget m)) ++ added.
Proof.
  revert m. induction evs as [|ev evs IH]; intros m.
  - exists []. simpl. now rewrite app_nil_r.
  - rewrite run_cons. destruct (IH (step props ev m)) as [added ->].
    assert (Hstep : exists one,
               map Derived.label (messages (widget (step props ev m)))
               = map Derived.label (messages (widget m)) ++ one).
    { destruct (step_has_effect props ev m)
        as [Hm _ _ _|now chat inp _ Hm _ _ _|k now inp _ Hm _ _ _
           |k inp b acc acc' _ [Hm|Hm] _ _ _|k t tail _ _ Hm _ _ _ _];
        rewrite Hm, ?map_app, ?replaceText_labels;
        first [ eexists; reflexivity | exists []; now rewrite app_nil_r ]. }
    destruct Hstep as [one ->]. exists (one ++ added).
    now rewrite app_assoc.
Qed.

Lemma step_counts (ev : Event) (m m' : Machine) :
  Derived.step_effect ev m m' ->
  exists n,
    Derived.users (messages (widget m'))
    = Derived.users (messages (widget m)) + n
    /\ length (tasks m') = length (tasks m) + n
    /\ length (Spec.requests (log m'))
       = length (Spec.requests (log m)) + n.
Proof.
  intros [Hm Ht _ Hr|now chat inp _ Hm Ht _ Hr|k now inp _ Hm Ht _ Hr
         |k inp b acc acc' _ [Hm|Hm] Ht _ Hr|k t tail _ _ Hm Hb Ht _ Hr];
    rewrite Hm, Ht, Hr;
    rewrite ?users_app, ?length_app, ?set_nth_length, ?users_replaceText,
      ?(users_bots _ Hb);
    [exists 0|exists 1|exists 0|exists 0|exists 0|exists 0]; simpl;
    repeat split; lia.
Qed.

(** X2.  From the mounting of the widget on, over every sequence of
    events: as many user messages are shown as calls of [handleSend] got
    past the guard, and exactly that many requests went to the provider. *)
Theorem one_request_per_user_message (props : ChatbotProps)
  (ai0 : GenAI.Client) (evs : list Event) :
  let m := run props evs (start ai0) in
  Derived.users (messages (widget m)) = length (tasks m)
  /\ length (Spec.requests (log m)) = length (tasks m).
Proof.
  cbv zeta.
  assert (H : forall m,
             Derived.users (messages (widget m)) = length (tasks m)
             /\ length (Spec.requests (log m)) = length (tasks m) ->
             Derived.users (messages (widget (run props evs m)))
             = length (tasks (run props evs m))
             /\ length (Spec.requests (log (run props evs m)))
                = length (tasks (run props evs m))).
  { induction evs as [|ev evs IH]; intros m Hm; [exact Hm|].
    rewrite run_cons. apply IH.
    destruct (step_counts ev m _ (step_has_effect props ev m))
      as (n & H1 & H2 & H3).
    lia. }
  apply H. split; reflexivity.
Qed.

Lemma running_set_nth_same (k : nat) (x t : Task) (l : list Task) :
  nth_error l k = Some t -> Derived.active x = Derived.active t ->
  Derived.running (set_nth k x l) = Derived.running l.
Proof.
  intros Hk Ha. now rewrite !running_map, (map_set_nth _ k x t l Hk Ha).
Qed.

Lemma running_positive (k : nat) (t : Task) (l : list Task) :
  nth_error l k = Some t -> Derived.active t = true ->
  1 <= Derived.running l.
Proof.
  unfold Derived.running.
  revert k. induction l as [|y l IH]; intros [|k]; simpl; try discriminate.
  - intros [= ->] ->. simpl. lia.
  - intros Hk Ht. specialize (IH k Hk Ht).
    destruct (Derived.active y); simpl; lia.
Qed.

Lemma running_app (l1 l2 : list Task) :
  Derived.running (l1 ++ l2) = Derived.running l1 + Derived.running l2.
Proof. unfold Derived.running. now rewrite filter_app, length_app. Qed.

(** X3.  When sends are started with the send button only, one send at
    most is in flight: over every sequence of events without the Enter
    key, exactly one call of [handleSend] is running while the in-flight
    flag is set, and none while it is clear. *)
Theorem button_keeps_single_flight (props : ChatbotProps)
  (ai0 : GenAI.Client) (evs : list Event) :
  Derived.no_enter evs ->
  let m := run props evs (start ai0) in
  Derived.running (tasks m) = if isLoading (widget m) then 1 else 0.
Proof.
  intros Hev. cbv zeta.
  assert (H : forall m,
             Derived.running (tasks m)
             = (if isLoading (widget m) then 1 else 0) ->
             Derived.running (tasks (run props evs m))
             = if isLoading (widget (run props evs m)) then 1 else 0).
  { induction Hev as [|ev evs Hne _ IH]; intros m Hm; [exact Hm|].
    rewrite run_cons. apply IH.
    destruct (step_has_effect props ev m)
      as [_ Ht Hl _|now chat inp Hfree _ Ht Hl _|k now inp Hk _ Ht Hl _
         |k inp b acc acc' Hk _ Ht Hl _|k t tail Hk Ha _ _ Ht Hl _];
      rewrite Ht, Hl.
    - exact Hm.
    - rewrite running_app, Hm, (Hfree Hne). reflexivity.
    - erewrite running_set_nth_same; [exact Hm | exact Hk | reflexivity].
    - erewrite running_set_nth_same; [exact Hm | exact Hk | reflexivity].
    - pose proof (running_positive _ _ _ Hk Ha) as Hpos.
      pose proof (running_set_nth_finish k
                    {| captured_input := captured_input t; phase := Finished |}
                    t (tasks m) Hk Ha eq_refl) as Hfin.
      destruct (isLoading (widget m)); lia. }
  apply H. reflexivity.
Qed.

Lemma button_keeps_single_flight_witness :
  let m :=
    run Samples.silent
      [ClickTrigger; Change "Hi"; ClickSend 1000; Change "again";
       ClickSend 1001; StreamResolved 0 1005]
      (start {| GenAI.chats_created := 0 |}) in
  Derived.running (tasks m) = if isLoading (widget m) then 1 else 0.
Proof.
  apply (button_keeps_single_flight Samples.silent
           {| GenAI.chats_created := 0 |}
           [ClickTrigger; Change "Hi"; ClickSend 1000; Change "again";
            ClickSend 1001; StreamResolved 0 1005]).
  repeat constructor; discriminate.
Defined.

(** X4.  The loader never outlives the sends: from the mounting of the
    widget on, over every sequence of events, while the in-flight flag is
    set the call of [handleSend] that started last is still running; so
    once every call has finished the flag is clear. *)
Theorem loader_stops_with_last_send (props : ChatbotProps)
  (ai0 : GenAI.Client) (evs : list Event) :
  let m := run props evs (start ai0) in
  (isLoading (widget m) = true ->
   last (map Derived.active (tasks m)) false = true)
  /\ (Forall (fun t => phase t = Finished) (tasks m) ->
      isLoading (widget m) = false).
Proof.
  cbv zeta.
  assert (H : forall m,
             (isLoading (widget m) = true ->
              last (map Derived.active (tasks m)) false = true) ->
             isLoading (widget (run props evs m)) = true ->
             last (map Derived.active (tasks (run props evs m))) false = true).
  { induction evs as [|ev evs IH]; intros m Hm; [exact Hm|].
    rewrite run_cons. apply IH.
    destruct (step_has_effect props ev m)
      as [_ Ht Hl _|now chat inp _ _ Ht Hl _|k now inp Hk _ Ht Hl _
         |k inp b acc acc' Hk _ Ht Hl _|k t tail Hk Ha _ _ Ht Hl _];
      rewrite Ht, Hl.
    - exact Hm.
    - intros _. rewrite map_app. cbn [map]. now rewrite last_last.
    - erewrite map_set_nth; [exact Hm | exact Hk | reflexivity].
    - erewrite map_set_nth; [exact Hm | exact Hk | reflexivity].
    - discriminate. }
  specialize (H (start ai0) ltac:(discriminate)).
  split; [exact H|].
  intros Hall.
  destruct (isLoading (widget (run props evs (start ai0)))) eqn:Hl;
    [|reflexivity].
  specialize (H eq_refl). exfalso.
  assert (Hfalse : forall ts,
             Forall (fun t => phase t = Finished) ts ->
             last (map Derived.active ts) false = false).
  { induction 1 as [|t ts Ht Hts IHts]; [reflexivity|].
    cbn [map]. destruct ts as [|t' ts'].
    - simpl. unfold Derived.active. now rewrite Ht.
    - exact IHts. }
  rewrite (Hfalse _ Hall) in H. discriminate.
Qed.

Lemma toString_not_init (z : Z) : JS.toString z <> "init".
Proof.
  unfold JS.toString. intros H.
  destruct (to_int_nonnil z) as [H1 H2].
  pose proof (NilZero.isi _ H1 H2) as Hi. rewrite H in Hi. discriminate Hi.
Qed.

(** X5.  The greeting stays as it is: from the mounting of the widget on,
    over every sequence of events, the first message is the greeting with
    its text, whatever ids the clock hands out. *)
Theorem greeting_is_never_overwritten (props : ChatbotProps)
  (ai0 : GenAI.Client) (evs : list Event) :
  exists rest,
    messages (widget (run props evs (start ai0)))
    = {| id := "init"; sender := bot; text := GREETING |} :: rest.
Proof.
  assert (H : forall m,
             (exists rest,
                 messages (widget m)
                 = {| id := "init"; sender := bot; text := GREETING |} :: rest)
             /\ Forall Derived.numeric (tasks m) ->
             (exists rest,
                 messages (widget (run props evs m))
                 = {| id := "init"; sender := bot; text := GREETING |} :: rest)
             /\ Forall Derived.numeric (tasks (run props evs m))).
  { induction evs as [|ev evs IH]; intros m Hm; [exact Hm|].
    rewrite run_cons. apply IH. destruct Hm as [[rest Hrest] Hnum].
    destruct (step_has_effect props ev m)
      as [Hm Ht _ _|now chat inp _ Hm Ht _ _|k now inp Hk Hm Ht _ _
         |k inp b acc acc' Hk Hm Ht _ _|k t tail Hk Ha Hm _ Ht _ _];
      rewrite Ht.
    - rewrite Hm. eauto.
    - rewrite Hm, Hrest. split; [eexists; reflexivity|].
      apply Forall_app. split; [exact Hnum|]. repeat constructor.
    - rewrite Hm, Hrest. split; [eexists; reflexivity|].
      apply Forall_set_nth; [exact Hnum|].
      unfold Derived.numeric. cbn [phase]. eexists. reflexivity.
    - assert (Hb : Derived.numeric
                     {| captured_input := inp; phase := Streaming b acc' |}).
      { apply nth_error_In in Hk.
        exact (proj1 (Forall_forall _ _) Hnum _ Hk). }
      split; [|now apply Forall_set_nth].
      destruct Hm as [Hm|Hm]; rewrite Hm, Hrest; [eauto|].
      destruct Hb as [z ->]. unfold replaceText. cbn [map id].
      destruct (String.eqb_spec "init" (JS.toString z)) as [E|_];
        [|eauto].
      symmetry in E. now apply toString_not_init in E.
    - rewrite Hm, Hrest. split; [eexists; reflexivity|].
      apply Forall_set_nth; [exact Hnum|]. exact I. }
  apply H. split; [eexists; reflexivity | constructor].
Qed.

(** ** What every send does *)

(** A send that got past the guard, whatever the provider and the callback
    do: the widget is settled; the messages are the old ones and the
    user's, written to by line 59 at most, then one or two bot messages;
    the calls are the one request, then those of the lead heuristic and of
    the [catch] block. *)
Lemma handleSend_shape (props : ChatbotProps) (e : Run) (w : State) :
  returns_early w = false ->
  let userMsg :=
    {| id := JS.toString (now_user e); sender := user; text := input w |} in
  exists chat earlier tail calls,
    chatSessionRef w = Some chat
    /\ handleSend props e w
       = (Derived.settled w (earlier ++ tail),
          sendMessageStream chat (input w) :: calls)
    /\ (earlier = messages w ++ [userMsg]
        \/ exists t,
             earlier = replaceText (JS.toString (now_bot e + 1)) t
                         (messages w ++ [userMsg]))
    /\ Forall (fun msg => sender msg = bot) tail
    /\ 1 <= length tail <= 2
    /\ Spec.requests calls = []
    /\ (Spec.lead_calls calls = []
        \/ Spec.lead_calls calls
           = Spec.lead_calls (fst (handleSend_lead props (input w)))).
Proof.
  intros Hg userMsg.
  destruct (response e) as [stream|] eqn:Hr.
  - assert (Hearlier :
              Derived.earlier_messages e w stream = messages w ++ [userMsg]
              \/ exists t,
                   Derived.earlier_messages e w stream
                   = replaceText (JS.toString (now_bot e + 1)) t
                       (messages w ++ [userMsg])).
    { unfold Derived.earlier_messages.
      destruct (Derived.some_text (GenAI.fragments stream)); eauto. }
    destruct (GenAI.ending stream) eqn:He.
    + destruct (handleSend_completed props e w stream Hg Hr He)
        as (chat & Hc & Hs).
      pose proof (requests_lead props (input w)) as Hrl.
      destruct (handleSend_lead props (input w)) as [calls2 [[]|]];
        cbn [fst] in *; exists chat, (Derived.earlier_messages e w stream).
      * eexists [_], calls2. rewrite Hs.
        repeat split; auto; simpl; lia.
      * eexists [_; _], (calls2 ++ [console_error]). rewrite Hs.
        repeat split; auto; simpl; try lia.
        -- now rewrite requests_app, Hrl.
        -- right. now rewrite lead_calls_app, app_nil_r.
    + destruct (handleSend_raised props e w stream Hg Hr He)
        as (chat & Hc & Hs).
      exists chat, (Derived.earlier_messages e w stream).
      eexists [_; _], [console_error]. rewrite Hs.
      repeat split; auto; simpl; lia.
  - destruct (handleSend_rejected props e w Hg Hr) as (chat & Hc & Hs).
    exists chat, (messages w ++ [userMsg]).
    eexists [_], [console_error]. rewrite Hs, <- app_assoc.
    repeat split; auto; simpl; lia.
Qed.



(** X7.  A call of [handleSend] sends one request at most and never
    retries: none when the guard returns, else exactly one, on the session
    of the widget, with the input as it was typed (not trimmed), whether
    the stream then completes, raises or never opens. *)
Theorem one_request_per_send (props : ChatbotProps) (e : Run) (w : State) :
  Spec.requests (snd (handleSend props e w))
  = match chatSessionRef w with
    | Some chat =>
        if JS.truthy (JS.trim (input w)) then [(chat, input w)] else []
    | None => []
    end.
Proof.
  destruct (returns_early w) eqn:Hg.
  - unfold handleSend. rewrite handleSend_start_none by exact Hg.
    unfold returns_early in Hg.
    destruct (chatSessionRef w); [|reflexivity].
    rewrite orb_false_r in Hg. apply negb_true_iff in Hg. now rewrite Hg.
  - destruct (handleSend_shape props e w Hg)
      as (chat & earlier & tail & calls & Hc & -> & _ & _ & _ & Hr & _).
    unfold returns_early in Hg. apply orb_false_elim in Hg as [Hg _].
    apply negb_false_iff in Hg. rewrite Hc, Hg.
    cbn [snd Spec.requests flat_map app]. fold (Spec.requests calls).
    now rewrite Hr.
Qed.

(** The untrimmed input goes out and is shown. *)
Example padded_input_is_sent_as_typed :
  Spec.requests
    (snd (handleSend Samples.silent (Samples.hello GenAI.Completed)
            (Samples.ready "  Hi  ")))
  = [(0, "  Hi  ")].
Proof. reflexivity. Qed.



Lemma lead_calls_of_lead (props : ChatbotProps) (inp : string) :
  Spec.lead_calls (fst (handleSend_lead props inp))
  = if mentions_booking inp
    then match onLeadCapture props with
         | Some _ => [ {| name := None; interest := Some LEAD_INTEREST |} ]
         | None => []
         end
    else [].
Proof.
  unfold handleSend_lead. destruct (mentions_booking inp); [|reflexivity].
  now destruct (onLeadCapture props).
Qed.

(** X9.  For every widget, with or without a lead-capture callback, and
    every send: the callback is called once at most, always with the
    fixed interest and no name, and only when the keyword test of line 65
    holds of the input, a callback was given and the guard was passed. *)
Theorem lead_capture_at_most_once (props : ChatbotProps) (e : Run) (w : State) :
  Spec.lead_calls (snd (handleSend props e w)) = []
  \/ (Spec.lead_calls (snd (handleSend props e w))
      = [ {| name := None; interest := Some "General Inquiry (Chat)" |} ]
      /\ mentions_booking (input w) = true
      /\ onLeadCapture props <> None
      /\ returns_early w = false).
Proof.
  destruct (returns_early w) eqn:Hg.
  - left. unfold handleSend. now rewrite handleSend_start_none.
  - destruct (handleSend_shape props e w Hg)
      as (chat & earlier & tail & calls & _ & -> & _ & _ & _ & _ & Hl).
    cbn [snd Spec.lead_calls flat_map app]. fold (Spec.lead_calls calls).
    destruct Hl as [->| ->]; [now left|].
    rewrite lead_calls_of_lead.
    destruct (mentions_booking (input w)); [|now left].
    destruct (onLeadCapture props); [|now left].
    right. repeat split. discriminate.
Qed.

(** X10.  While nothing is in flight the send button and the Enter key do
    the same: both send, or both do nothing. *)
Theorem button_is_enter_when_idle (props : ChatbotProps) (now : Z)
  (m : Machine) :
  isLoading (widget m) = false ->
  step props (ClickSend now) m = step props (KeyDownEnter now) m.
Proof.
  intros Hl. cbn [step]. rewrite Hl. cbn [orb].
  destruct (isOpen (widget m)); [|reflexivity].
  destruct (negb (JS.truthy (JS.trim (input (widget m))))) eqn:Hb;
    [|reflexivity].
  unfold call_handleSend. rewrite handleSend_start_none; [reflexivity|].
  unfold returns_early. now rewrite Hb.
Qed.

Lemma button_is_enter_when_idle_witness :
  step Samples.silent (ClickSend 1000) (Samples.idle (Samples.ready "Hi"))
  = step Samples.silent (KeyDownEnter 1000) (Samples.idle (Samples.ready "Hi")).
Proof.
  apply (button_is_enter_when_idle Samples.silent 1000
           (Samples.idle (Samples.ready "Hi"))).
  reflexivity.
Defined.

(** Replaces the renders of machines that hold the session [chat], the
    innermost first. *)
Ltac settle_renders chat Hc :=
  repeat match goal with
    | |- context [render ?x] =>
        lazymatch x with
        | context [render _] => fail
        | _ => rewrite (render_with_session chat x) by (simpl; exact Hc)
        end
    end.

(** X11.  Closing or opening the window does not disturb a response on
    its way: with a session in place, an event of a stream and a click on
    the trigger button lead to the same widget state, the same running
    calls and the same calls to the outside in either order. *)
Theorem toggle_commutes_with_stream (props : ChatbotProps) (ev : Event)
  (chat : GenAI.Chat) (m : Machine) :
  Derived.stream_event ev = true ->
  chatSessionRef (widget m) = Some chat ->
  let a := step props ev (step props ClickTrigger m) in
  let b := step props ClickTrigger (step props ev m) in
  widget a = widget b /\ tasks a = tasks b /\ ai a = ai b
  /\ Derived.outward (log a) = Derived.outward (log b).
Proof.
  intros Hev Hc a b. subst a b.
  destruct ev as [|v|now|now|k now|k now|k c|k now|k now];
    try discriminate Hev; clear Hev;
    cbn [step];
    rewrite (render_with_session chat
               (with_widget (setIsOpen (negb (isOpen (widget m))) (widget m)) m))
      by exact Hc;
    cbn [tasks with_calls with_widget];
    destruct (nth_error (tasks m) k) as [[inp [|bid acc|]]|] eqn:Hk;
    unfold fail_task; cbn [handleSend_catch handleSend_opened widget];
    try (destruct (JS.truthy_opt (GenAI.text c)) eqn:E;
         [rewrite !chunk_truthy by exact E | rewrite !chunk_falsy by exact E]);
    try (destruct (handleSend_lead props inp) as [calls [[]|]]);
    settle_renders chat Hc;
    cbn; rewrite ?outward_app, ?outward_scroll, ?app_nil_r; auto.
Qed.

Lemma toggle_commutes_with_stream_witness :
  let m :=
    run Samples.silent [ClickTrigger; Change "Hi"; KeyDownEnter 1000;
                        StreamResolved 0 1005]
      (start {| GenAI.chats_created := 0 |}) in
  let ev := Fragment 0 (Samples.fragment "Hel") in
  let a := step Samples.silent ev (step Samples.silent ClickTrigger m) in
  let b := step Samples.silent ClickTrigger (step Samples.silent ev m) in
  widget a = widget b /\ tasks a = tasks b /\ ai a = ai b
  /\ Derived.outward (log a) = Derived.outward (log b).
Proof.
  apply (toggle_commutes_with_stream Samples.silent
           (Fragment 0 (Samples.fragment "Hel")) 0); reflexivity.
Defined.

(** ** More about the lead heuristic and the one-shot helpers *)

(** X12.  The keyword test does not look at what surrounds a keyword: an
    input that passes it passes it with any text before and after. *)
Theorem keyword_survives_context (pre s post : string) :
  mentions_booking s = true ->
  mentions_booking (pre ++ s ++ post) = true.
Proof.
  rewrite !mentions_booking_iff.
  assert (H : forall pat,
             Spec.contains_ignoring_case s pat ->
             Spec.contains_ignoring_case (pre ++ s ++ post) pat).
  { intros pat (a & mid & b & -> & Hmid).
    exists (pre ++ a)%string, mid, (b ++ post)%string.
    split; [|exact Hmid]. now rewrite !append_assoc. }
  intros [Hk|Hk]; [left|right]; now apply H.
Qed.

Lemma keyword_survives_context_witness :
  mentions_booking ("I fear over" ++ "booking" ++ "s at the clinic") = true.
Proof.
  apply (keyword_survives_context "I fear over" "booking" "s at the clinic").
  reflexivity.
Defined.

Lemma append_inj_l (a x y : string) :
  (a ++ x)%string = (a ++ y)%string -> x = y.
Proof. induction a as [|c a IH]; simpl; [auto|]. intros [= H]. auto. Qed.

Lemma length_append (a b : string) :
  String.length (a ++ b) = String.length a + String.length b.
Proof. induction a as [|c a IH]; simpl; [reflexivity | now rewrite IH]. Qed.

Lemma append_inj_r (x y c : string) :
  (x ++ c)%string = (y ++ c)%string -> x = y.
Proof.
  revert y. induction x as [|a x IH]; intros [|b y] H; simpl in H.
  - reflexivity.
  - apply (f_equal String.length) in H. simpl in H.
    rewrite length_append in H. lia.
  - apply (f_equal String.length) in H. simpl in H.
    rewrite length_append in H. lia.
  - injection H as -> H. now rewrite (IH y H).
Qed.

(** X13.  The prompt of [generateMarketingContent] tells the topic and
    the kind of content apart: two calls build the same prompt only for
    the same topic and the same kind, whatever characters the topics
    hold. *)
Theorem marketing_prompt_inj (topic1 topic2 : string)
  (type1 type2 : geminiService.ContentType) :
  geminiService.marketing_prompt topic1 type1
  = geminiService.marketing_prompt topic2 type2 ->
  topic1 = topic2 /\ type1 = type2.
Proof.
  destruct type1, type2;
    unfold geminiService.marketing_prompt, geminiService.blog_prompt,
      geminiService.service_prompt; intros H.
  - split; [|reflexivity].
    apply append_inj_l, append_inj_l in H. now apply append_inj_r in H.
  - cbn [String.append] in H. exfalso. congruence.
  - cbn [String.append] in H. exfalso. congruence.
  - split; [|reflexivity].
    apply append_inj_l, append_inj_l in H. now apply append_inj_r in H.
Qed.

Lemma marketing_prompt_inj_witness :
  "teeth whitening" = "teeth whitening"
  /\ geminiService.blog = geminiService.blog.
Proof.
  apply (marketing_prompt_inj "teeth whitening" "teeth whitening"
           geminiService.blog geminiService.blog).
  reflexivity.
Defined.

Section OneShotMore.

Variable Lead : Type.
Variable JSON_stringify : list Lead -> JS.Completion string.

(** X14.  The one-shot helpers never hand back an empty string, whatever
    the provider does; and when the provider answers with a non-empty
    text, that text is what they return, unchanged. *)
Theorem one_shot_results_are_never_empty
  (generateContent :
     GenAI.GenerateContentParameters
     -> JS.Completion GenAI.GenerateContentResponse)
  (topic : string) (type : geminiService.ContentType) (leadsData : list Lead) :
  (exists s,
      geminiService.generateMarketingContent generateContent topic type
      = JS.Normal s
      /\ s <> ""
      /\ (forall response t,
            generateContent
              {| GenAI.model := "gemini-3-flash-preview";
                 GenAI.contents := geminiService.marketing_prompt topic type |}
            = JS.Normal response ->
            GenAI.text response = Some t -> t <> "" -> s = t))
  /\ (exists s,
        geminiService.analyzeLeads generateContent Lead JSON_stringify leadsData
        = JS.Normal s
        /\ s <> ""
        /\ (forall json response t,
              JSON_stringify leadsData = JS.Normal json ->
              generateContent
                {| GenAI.model := "gemini-3-flash-preview";
                   GenAI.contents := geminiService.leads_prompt json |}
              = JS.Normal response ->
              GenAI.text response = Some t -> t <> "" -> s = t)).
Proof.
  assert (Hor : forall o d, d <> "" -> JS.or_else o d <> ""
                            /\ forall t, o = Some t -> t <> "" ->
                                         JS.or_else o d = t).
  { intros [[|c r]|] d Hd; unfold JS.or_else; simpl; split; auto;
      try discriminate; intros t [= <-]; congruence. }
  unfold geminiService.generateMarketingContent, geminiService.analyzeLeads.
  cbv zeta. unfold geminiService.MODEL. split.
  - destruct (generateContent _) as [r|] eqn:Hg; simpl; eexists;
      (split; [reflexivity|]).
    + destruct (Hor (GenAI.text r) geminiService.CONTENT_EMPTY
                  ltac:(discriminate)) as [H1 H2].
      split; [exact H1|]. intros response t [= <-]. apply H2.
    + split; [discriminate|]. discriminate.
  - destruct (JSON_stringify leadsData) as [json|] eqn:Hj; simpl.
    + destruct (generateContent _) as [r|] eqn:Hg; simpl; eexists;
        (split; [reflexivity|]).
      * destruct (Hor (GenAI.text r) geminiService.INSIGHTS_EMPTY
                    ltac:(discriminate)) as [H1 H2].
        split; [exact H1|]. intros json' response t [= <-].
        rewrite Hg. intros [= <-]. apply H2.
      * split; [discriminate|]. intros json' response t [= <-].
        rewrite Hg. discriminate.
    + eexists. split; [reflexivity|]. split; discriminate.
Qed.

(** X15.  A caller cannot tell a failed provider call from an answer
    that reads like the fallback, nor an empty answer from one that reads
    like the default: [generateMarketingContent] returns the same string
    in both cases. *)
Theorem marketing_failure_is_not_told_apart
  (failing answering : GenAI.GenerateContentParameters
                       -> JS.Completion GenAI.GenerateContentResponse)
  (topic : string) (type : geminiService.ContentType)
  (response : GenAI.GenerateContentResponse) :
  let request :=
    {| GenAI.model := "gemini-3-flash-preview";
       GenAI.contents := geminiService.marketing_prompt topic type |} in
  answering request = JS.Normal response ->
  (failing request = JS.Throw ->
   GenAI.text response
   = Some "Unable to generate content at this time. Please try again later." ->
   geminiService.generateMarketingContent failing topic type
   = geminiService.generateMarketingContent answering topic type)
  /\ (forall empty,
        failing request = JS.Normal empty ->
        JS.truthy_opt (GenAI.text empty) = false ->
        GenAI.text response = Some "Content generation failed." ->
        geminiService.generateMarketingContent failing topic type
        = geminiService.generateMarketingContent answering topic type).
Proof.
  intros request Ha.
  unfold geminiService.generateMarketingContent. cbv zeta.
  unfold geminiService.MODEL. fold request. rewrite Ha. split.
  - intros -> Ht. simpl. unfold JS.or_else. now rewrite Ht.
  - intros empty -> He Ht. simpl. unfold JS.or_else. now rewrite He, Ht.
Qed.

End OneShotMore.

Lemma marketing_failure_is_not_told_apart_witness :
  geminiService.generateMarketingContent (fun _ => JS.Throw)
    "teeth whitening" geminiService.service_desc
  = geminiService.generateMarketingContent
      (fun _ => JS.Normal
                  (Samples.fragment
                     "Unable to generate content at this time. Please try again later."))
      "teeth whitening" geminiService.service_desc.
Proof.
  apply (proj1 (marketing_failure_is_not_told_apart
                  (fun _ => JS.Throw)
                  (fun _ => JS.Normal
                     (Samples.fragment
                        "Unable to generate content at this time. Please try again later."))
                  "teeth whitening" geminiService.service_desc
                  (Samples.fragment
                     "Unable to generate content at this time. Please try again later.")
                  eq_refl));
    reflexivity.
Defined.

Lemma one_shot_results_are_never_empty_witness :
  (exists s,
      geminiService.generateMarketingContent
        (fun _ => JS.Normal (Samples.fragment "Bright smiles."))
        "teeth whitening" geminiService.blog
      = JS.Normal s
      /\ s = "Bright smiles.")
  /\ (exists s,
        geminiService.analyzeLeads
          (fun _ => JS.Normal (Samples.fragment "Bright smiles.")) unit
          (fun _ => JS.Normal "[]") [tt]
        = JS.Normal s
        /\ s = "Bright smiles.").
Proof.
  destruct (one_shot_results_are_never_empty unit (fun _ => JS.Normal "[]")
              (fun _ => JS.Normal (Samples.fragment "Bright smiles."))
              "teeth whitening" geminiService.blog [tt])
    as [(s1 & H1 & _ & V1) (s2 & H2 & _ & V2)].
  split.
  - exists s1. split; [exact H1|].
    apply (V1 (Samples.fragment "Bright smiles.") "Bright smiles.");
      [reflexivity | reflexivity | discriminate].
  - exists s2. split; [exact H2|].
    apply (V2 "[]" (Samples.fragment "Bright smiles.") "Bright smiles.");
      [reflexivity | reflexivity | reflexivity | discriminate].
Defined.

(** ** Ids *)

(** X16.  The ids of the messages are not always distinct: when the
    stream raises one millisecond after it opened, the apology gets the id
    of the placeholder before it, whatever was in the list and whatever
    was delivered. *)
Theorem apology_can_share_placeholder_id
  (props : ChatbotProps) (e : Run) (w : State) (stream : GenAI.ResponseStream) :
  returns_early w = false ->
  response e = JS.Normal stream -> GenAI.ending stream = GenAI.Raised ->
  now_catch e = (now_bot e + 1)%Z ->
  ~ NoDup (map id (messages (fst (handleSend props e w)))).
Proof.
  intros Hg Hr He Hclock.
  destruct (handleSend_raised props e w stream Hg Hr He) as (chat & _ & ->).
  cbn [fst Derived.settled messages]. rewrite Hclock, map_app. cbn [map id].
  intros Hnd. apply NoDup_remove_2 in Hnd.
  apply Hnd. rewrite in_app_iff. right. now left.
Qed.

Lemma apology_can_share_placeholder_id_witness :
  ~ NoDup
      (map id
         (messages
            (fst (handleSend Samples.silent
                    {| now_user := 1000%Z;
                       response := response (Samples.hello GenAI.Raised);
                       now_bot := 1005%Z; now_catch := 1006%Z |}
                    (Samples.ready "Hi"))))).
Proof.
  apply (apology_can_share_placeholder_id Samples.silent
           {| now_user := 1000%Z;
              response := response (Samples.hello GenAI.Raised);
              now_bot := 1005%Z; now_catch := 1006%Z |}
           (Samples.ready "Hi")
           {| GenAI.fragments := [Samples.fragment "Hel"; Samples.fragment "lo"];
              GenAI.ending := GenAI.Raised |});
    reflexivity.
Defined.
